(** * LiveFeature: the live duplex session of components/LiveFeature.tsx

    A shallow embedding of the session component: its React state and
    refs as one record, its handlers ([cleanup], [stopScreenShare],
    [startSession], the [onOpen], [onMessage], [onClose], [onError]
    callbacks given to [connectLive], and the [onaudioprocess] capture
    callback) as programs of a small exception-and-output monad, and the
    platform calls they make (Web Audio, media devices, the live
    transport) as an output trace. *)

From Stdlib Require Import List Bool Arith ZArith NArith PArith Lia.
From Stdlib Require Import SpecFloat.
Import ListNotations.

(** ** JavaScript strings

    A JS string is a sequence of UTF-16 code units. *)

Definition JsString := list N.

(** Truthiness of a string: only the empty string is falsy. *)
Definition truthy (s : JsString) : bool :=
  match s with
  | [] => false
  | _ :: _ => true
  end.

(** ECMAScript WhiteSpace and LineTerminator code points, the ones
    [String.prototype.trim] strips. All of them are in the BMP, so the
    test is on single code units. *)
Definition isWhiteSpace (c : N) : bool :=
  ((9 <=? c) && (c <=? 13)            (* TAB, LF, VT, FF, CR *)
   || (c =? 32)                        (* SPACE *)
   || (c =? 160)                       (* NO-BREAK SPACE *)
   || (c =? 5760)                      (* OGHAM SPACE MARK *)
   || ((8192 <=? c) && (c <=? 8202))   (* EN QUAD .. HAIR SPACE *)
   || (c =? 8232) || (c =? 8233)       (* LINE / PARAGRAPH SEPARATOR *)
   || (c =? 8239)                      (* NARROW NO-BREAK SPACE *)
   || (c =? 8287)                      (* MEDIUM MATHEMATICAL SPACE *)
   || (c =? 12288)                     (* IDEOGRAPHIC SPACE *)
   || (c =? 65279))%N.                 (* ZERO WIDTH NO-BREAK SPACE *)

Fixpoint trimStart (s : JsString) : JsString :=
  match s with
  | [] => []
  | c :: rest => if isWhiteSpace c then trimStart rest else s
  end.

Definition trimEnd (s : JsString) : JsString := rev (trimStart (rev s)).

(** [String.prototype.trim]. *)
Definition trim (s : JsString) : JsString := trimEnd (trimStart s).

(** ** JavaScript numbers

    A JS number is an IEEE 754 binary64 value. The times the scheduler
    handles ([nextStartTimeRef.current], [outputCtx.currentTime],
    [audioBuffer.duration]) are such numbers, in seconds, and its [+=]
    and [Math.max] round and compare as binary64 does. *)

Definition double := spec_float.

Definition prec : Z := 53.
Definition emax : Z := 1024.

(** The number an integer literal denotes. *)
Definition ofZ (n : Z) : double := binary_normalize prec emax n 0 false.

(** [x + y] and [x / y], rounded to nearest, ties to even. *)
Definition dadd (x y : double) : double := SFadd prec emax x y.
Definition ddiv (x y : double) : double := SFdiv prec emax x y.

(** [Math.max(x, y)]: NaN when either is NaN, and [+0] is larger than
    [-0]. *)
Definition mathMax (x y : double) : double :=
  match SFcompare x y with
  | None => S754_nan
  | Some Lt => y
  | Some Gt => x
  | Some Eq =>
      match x with
      | S754_zero true => y
      | _ => x
      end
  end.

(** [x <= y], false when either is NaN. *)
Definition dle (x y : double) : bool := SFleb x y.

(** ** Data model *)

Inductive Role := user | model.

(** [interface TranscriptItem]. *)
Record TranscriptItem := { role : Role; text : JsString }.

(** The [status] state: ['disconnected' | 'connecting' | 'connected']. *)
Inductive Status := disconnected | connecting | connected.

(** Platform objects are known by identity. *)
Definition CtxId := nat.     (* an AudioContext *)
Definition NodeId := nat.    (* an audio node *)
Definition TrackId := nat.   (* a MediaStreamTrack *)

(** A [MediaStream], by the tracks [getTracks()] returns. *)
Definition MediaStream := list TrackId.

(** The hidden [<video>] element, by its [srcObject]. *)
Record HTMLVideoElement := { srcObject : option MediaStream }.

(** The closure environment shared by the callbacks that one call of
    [startSession] hands to [connectLive]: the locals [ctx], [outputCtx]
    and [stream], and the [isMuted] binding of the render in which
    [startSession] was created. [isMuted] is a [const] of that render: no
    later [setIsMuted] changes what these callbacks see. *)
Record Session := {
  ses_ctx : CtxId;
  ses_outputCtx : CtxId;
  ses_stream : MediaStream;
  ses_isMuted : bool
}.

(** The ScriptProcessorNode with the [onaudioprocess] handler that
    [onOpen] installs on it; the handler closes over the session's
    [isMuted] binding. *)
Record Processor := {
  proc_node : NodeId;
  proc_isMuted : bool
}.

(** What [sendRealtimeInput] is given: the PCM blob made from one capture
    buffer ([createPcmBlob] is in utils/audioUtils, which is not part of
    the sources; the blob is known by the capture buffer it encodes). *)
Inductive Media := PcmBlob (buffer : nat).

(** Calls into the platform, in the order they are made. Calls that only
    wire audio nodes together ([connect]) or register a listener are not
    recorded; the ['ended'] listener of a playback source is the
    [SourceEnded] event below. *)
Inductive Effect :=
| NewAudioContext (ctx : CtxId) (sampleRate : N)
| GetUserMedia
| ConnectLive
| CreateMediaStreamSource (ctx : CtxId) (n : NodeId)
| CreateScriptProcessor (ctx : CtxId) (n : NodeId)
| TrackStop (t : TrackId)
| NodeDisconnect (n : NodeId)
| ContextClose (ctx : CtxId)
| CreateBufferSource (ctx : CtxId) (n : NodeId)
| BufferStart (n : NodeId) (when duration : double)
| BufferStop (n : NodeId)
| ClearInterval (id : positive)
| SendRealtimeInput (m : Media).

(** The component's state: the [useState] cells first, then the
    [useRef] cells by their [.current], then the supply of fresh object
    identities. A [setX(v)] is a write to its cell: no handler reads a
    cell after setting it. [nextStartTimeRef] holds a number of seconds
    on the output context's clock. *)
Record State := {
  isConnected : bool;
  isMuted : bool;
  status : Status;
  transcript : list TranscriptItem;
  captionText : JsString;
  isScreenSharing : bool;
  videoRef : option HTMLVideoElement;
  audioContextRef : option CtxId;
  inputSourceRef : option NodeId;
  processorRef : option Processor;
  streamRef : option MediaStream;
  sessionPromiseRef : option Session;
  videoStreamRef : option MediaStream;
  videoIntervalRef : option positive;
  currentInputRef : JsString;
  currentOutputRef : JsString;
  nextStartTimeRef : double;
  sourcesRef : list NodeId;
  fresh : nat
}.

(** The component as mounted: the initial values of every cell, with the
    [<video>] element rendered. *)
Definition initial : State :=
  {| isConnected := false; isMuted := false; status := disconnected;
     transcript := []; captionText := []; isScreenSharing := false;
     videoRef := Some {| srcObject := None |};
     audioContextRef := None; inputSourceRef := None; processorRef := None;
     streamRef := None; sessionPromiseRef := None; videoStreamRef := None;
     videoIntervalRef := None; currentInputRef := []; currentOutputRef := [];
     nextStartTimeRef := ofZ 0; sourcesRef := []; fresh := 0 |}.

(** Field updates. *)

Definition set_isConnected (v : bool) (s : State) : State :=
  {| isConnected := v; isMuted := isMuted s; status := status s;
     transcript := transcript s; captionText := captionText s;
     isScreenSharing := isScreenSharing s; videoRef := videoRef s;
     audioContextRef := audioContextRef s;
     inputSourceRef := inputSourceRef s; processorRef := processorRef s;
     streamRef := streamRef s; sessionPromiseRef := sessionPromiseRef s;
     videoStreamRef := videoStreamRef s;
     videoIntervalRef := videoIntervalRef s;
     currentInputRef := currentInputRef s;
     currentOutputRef := currentOutputRef s;
     nextStartTimeRef := nextStartTimeRef s; sourcesRef := sourcesRef s;
     fresh := fresh s |}.

Definition set_isMuted (v : bool) (s : State) : State :=
  {| isConnected := isConnected s; isMuted := v; status := status s;
     transcript := transcript s; captionText := captionText s;
     isScreenSharing := isScreenSharing s; videoRef := videoRef s;
     audioContextRef := audioContextRef s;
     inputSourceRef := inputSourceRef s; processorRef := processorRef s;
     streamRef := streamRef s; sessionPromiseRef := sessionPromiseRef s;
     videoStreamRef := videoStreamRef s;
     videoIntervalRef := videoIntervalRef s;
     currentInputRef := currentInputRef s;
     currentOutputRef := currentOutputRef s;
     nextStartTimeRef := nextStartTimeRef s; sourcesRef := sourcesRef s;
     fresh := fresh s |}.

Definition set_status (v : Status) (s : State) : State :=
  {| isConnected := isConnected s; isMuted := isMuted s; status := v;
     transcript := transcript s; captionText := captionText s;
     isScreenSharing := isScreenSharing s; videoRef := videoRef s;
     audioContextRef := audioContextRef s;
     inputSourceRef := inputSourceRef s; processorRef := processorRef s;
     streamRef := streamRef s; sessionPromiseRef := sessionPromiseRef s;
     videoStreamRef := videoStreamRef s;
     videoIntervalRef := videoIntervalRef s;
     currentInputRef := currentInputRef s;
     currentOutputRef := currentOutputRef s;
     nextStartTimeRef := nextStartTimeRef s; sourcesRef := sourcesRef s;
     fresh := fresh s |}.

Definition set_transcript (v : list TranscriptItem) (s : State) : State :=
  {| isConnected := isConnected s; isMuted := isMuted s; status := status s;
     transcript := v; captionText := captionText s;
     isScreenSharing := isScreenSharing s; videoRef := videoRef s;
     audioContextRef := audioContextRef s;
     inputSourceRef := inputSourceRef s; processorRef := processorRef s;
     streamRef := streamRef s; sessionPromiseRef := sessionPromiseRef s;
     videoStreamRef := videoStreamRef s;
     videoIntervalRef := videoIntervalRef s;
     currentInputRef := currentInputRef s;
     currentOutputRef := currentOutputRef s;
     nextStartTimeRef := nextStartTimeRef s; sourcesRef := sourcesRef s;
     fresh := fresh s |}.

Definition set_captionText (v : JsString) (s : State) : State :=
  {| isConnected := isConnected s; isMuted := isMuted s; status := status s;
     transcript := transcript s; captionText := v;
     isScreenSharing := isScreenSharing s; videoRef := videoRef s;
     audioContextRef := audioContextRef s;
     inputSourceRef := inputSourceRef s; processorRef := processorRef s;
     streamRef := streamRef s; sessionPromiseRef := sessionPromiseRef s;
     videoStreamRef := videoStreamRef s;
     videoIntervalRef := videoIntervalRef s;
     currentInputRef := currentInputRef s;
     currentOutputRef := currentOutputRef s;
     nextStartTimeRef := nextStartTimeRef s; sourcesRef := sourcesRef s;
     fresh := fresh s |}.

Definition set_isScreenSharing (v : bool) (s : State) : State :=
  {| isConnected := isConnected s; isMuted := isMuted s; status := status s;
     transcript := transcript s; captionText := captionText s;
     isScreenSharing := v; videoRef := videoRef s;
     audioContextRef := audioContextRef s;
     inputSourceRef := inputSourceRef s; processorRef := processorRef s;
     streamRef := streamRef s; sessionPromiseRef := sessionPromiseRef s;
     videoStreamRef := videoStreamRef s;
     videoIntervalRef := videoIntervalRef s;
     currentInputRef := currentInputRef s;
     currentOutputRef := currentOutputRef s;
     nextStartTimeRef := nextStartTimeRef s; sourcesRef := sourcesRef s;
     fresh := fresh s |}.

Definition set_videoRef (v : option HTMLVideoElement) (s : State) : State :=
  {| isConnected := isConnected s; isMuted := isMuted s; status := status s;
     transcript := transcript s; captionText := captionText s;
     isScreenSharing := isScreenSharing s; videoRef := v;
     audioContextRef := audioContextRef s;
     inputSourceRef := inputSourceRef s; processorRef := processorRef s;
     streamRef := streamRef s; sessionPromiseRef := sessionPromiseRef s;
     videoStreamRef := videoStreamRef s;
     videoIntervalRef := videoIntervalRef s;
     currentInputRef := currentInputRef s;
     currentOutputRef := currentOutputRef s;
     nextStartTimeRef := nextStartTimeRef s; sourcesRef := sourcesRef s;
     fresh := fresh s |}.

Definition set_audioContextRef (v : option CtxId) (s : State) : State :=
  {| isConnected := isConnected s; isMuted := isMuted s; status := status s;
     transcript := transcript s; captionText := captionText s;
     isScreenSharing := isScreenSharing s; videoRef := videoRef s;
     audioContextRef := v; inputSourceRef := inputSourceRef s;
     processorRef := processorRef s; streamRef := streamRef s;
     sessionPromiseRef := sessionPromiseRef s;
     videoStreamRef := videoStreamRef s;
     videoIntervalRef := videoIntervalRef s;
     currentInputRef := currentInputRef s;
     currentOutputRef := currentOutputRef s;
     nextStartTimeRef := nextStartTimeRef s; sourcesRef := sourcesRef s;
     fresh := fresh s |}.

Definition set_inputSourceRef (v : option NodeId) (s : State) : State :=
  {| isConnected := isConnected s; isMuted := isMuted s; status := status s;
     transcript := transcript s; captionText := captionText s;
     isScreenSharing := isScreenSharing s; videoRef := videoRef s;
     audioContextRef := audioContextRef s; inputSourceRef := v;
     processorRef := processorRef s; streamRef := streamRef s;
     sessionPromiseRef := sessionPromiseRef s;
     videoStreamRef := videoStreamRef s;
     videoIntervalRef := videoIntervalRef s;
     currentInputRef := currentInputRef s;
     currentOutputRef := currentOutputRef s;
     nextStartTimeRef := nextStartTimeRef s; sourcesRef := sourcesRef s;
     fresh := fresh s |}.

Definition set_processorRef (v : option Processor) (s : State) : State :=
  {| isConnected := isConnected s; isMuted := isMuted s; status := status s;
     transcript := transcript s; captionText := captionText s;
     isScreenSharing := isScreenSharing s; videoRef := videoRef s;
     audioContextRef := audioContextRef s;
     inputSourceRef := inputSourceRef s; processorRef := v;
     streamRef := streamRef s; sessionPromiseRef := sessionPromiseRef s;
     videoStreamRef := videoStreamRef s;
     videoIntervalRef := videoIntervalRef s;
     currentInputRef := currentInputRef s;
     currentOutputRef := currentOutputRef s;
     nextStartTimeRef := nextStartTimeRef s; sourcesRef := sourcesRef s;
     fresh := fresh s |}.

Definition set_streamRef (v : option MediaStream) (s : State) : State :=
  {| isConnected := isConnected s; isMuted := isMuted s; status := status s;
     transcript := transcript s; captionText := captionText s;
     isScreenSharing := isScreenSharing s; videoRef := videoRef s;
     audioContextRef := audioContextRef s;
     inputSourceRef := inputSourceRef s; processorRef := processorRef s;
     streamRef := v; sessionPromiseRef := sessionPromiseRef s;
     videoStreamRef := videoStreamRef s;
     videoIntervalRef := videoIntervalRef s;
     currentInputRef := currentInputRef s;
     currentOutputRef := currentOutputRef s;
     nextStartTimeRef := nextStartTimeRef s; sourcesRef := sourcesRef s;
     fresh := fresh s |}.

Definition set_sessionPromiseRef (v : option Session) (s : State) : State :=
  {| isConnected := isConnected s; isMuted := isMuted s; status := status s;
     transcript := transcript s; captionText := captionText s;
     isScreenSharing := isScreenSharing s; videoRef := videoRef s;
     audioContextRef := audioContextRef s;
     inputSourceRef := inputSourceRef s; processorRef := processorRef s;
     streamRef := streamRef s; sessionPromiseRef := v;
     videoStreamRef := videoStreamRef s;
     videoIntervalRef := videoIntervalRef s;
     currentInputRef := currentInputRef s;
     currentOutputRef := currentOutputRef s;
     nextStartTimeRef := nextStartTimeRef s; sourcesRef := sourcesRef s;
     fresh := fresh s |}.

Definition set_videoStreamRef (v : option MediaStream) (s : State) : State :=
  {| isConnected := isConnected s; isMuted := isMuted s; status := status s;
     transcript := transcript s; captionText := captionText s;
     isScreenSharing := isScreenSharing s; videoRef := videoRef s;
     audioContextRef := audioContextRef s;
     inputSourceRef := inputSourceRef s; processorRef := processorRef s;
     streamRef := streamRef s; sessionPromiseRef := sessionPromiseRef s;
     videoStreamRef := v; videoIntervalRef := videoIntervalRef s;
     currentInputRef := currentInputRef s;
     currentOutputRef := currentOutputRef s;
     nextStartTimeRef := nextStartTimeRef s; sourcesRef := sourcesRef s;
     fresh := fresh s |}.

Definition set_videoIntervalRef (v : option positive) (s : State) : State :=
  {| isConnected := isConnected s; isMuted := isMuted s; status := status s;
     transcript := transcript s; captionText := captionText s;
     isScreenSharing := isScreenSharing s; videoRef := videoRef s;
     audioContextRef := audioContextRef s;
     inputSourceRef := inputSourceRef s; processorRef := processorRef s;
     streamRef := streamRef s; sessionPromiseRef := sessionPromiseRef s;
     videoStreamRef := videoStreamRef s; videoIntervalRef := v;
     currentInputRef := currentInputRef s;
     currentOutputRef := currentOutputRef s;
     nextStartTimeRef := nextStartTimeRef s; sourcesRef := sourcesRef s;
     fresh := fresh s |}.

Definition set_currentInputRef (v : JsString) (s : State) : State :=
  {| isConnected := isConnected s; isMuted := isMuted s; status := status s;
     transcript := transcript s; captionText := captionText s;
     isScreenSharing := isScreenSharing s; videoRef := videoRef s;
     audioContextRef := audioContextRef s;
     inputSourceRef := inputSourceRef s; processorRef := processorRef s;
     streamRef := streamRef s; sessionPromiseRef := sessionPromiseRef s;
     videoStreamRef := videoStreamRef s;
     videoIntervalRef := videoIntervalRef s; currentInputRef := v;
     currentOutputRef := currentOutputRef s;
     nextStartTimeRef := nextStartTimeRef s; sourcesRef := sourcesRef s;
     fresh := fresh s |}.

Definition set_currentOutputRef (v : JsString) (s : State) : State :=
  {| isConnected := isConnected s; isMuted := isMuted s; status := status s;
     transcript := transcript s; captionText := captionText s;
     isScreenSharing := isScreenSharing s; videoRef := videoRef s;
     audioContextRef := audioContextRef s;
     inputSourceRef := inputSourceRef s; processorRef := processorRef s;
     streamRef := streamRef s; sessionPromiseRef := sessionPromiseRef s;
     videoStreamRef := videoStreamRef s;
     videoIntervalRef := videoIntervalRef s;
     currentInputRef := currentInputRef s; currentOutputRef := v;
     nextStartTimeRef := nextStartTimeRef s; sourcesRef := sourcesRef s;
     fresh := fresh s |}.

Definition set_nextStartTimeRef (v : double) (s : State) : State :=
  {| isConnected := isConnected s; isMuted := isMuted s; status := status s;
     transcript := transcript s; captionText := captionText s;
     isScreenSharing := isScreenSharing s; videoRef := videoRef s;
     audioContextRef := audioContextRef s;
     inputSourceRef := inputSourceRef s; processorRef := processorRef s;
     streamRef := streamRef s; sessionPromiseRef := sessionPromiseRef s;
     videoStreamRef := videoStreamRef s;
     videoIntervalRef := videoIntervalRef s;
     currentInputRef := currentInputRef s;
     currentOutputRef := currentOutputRef s; nextStartTimeRef := v;
     sourcesRef := sourcesRef s; fresh := fresh s |}.

Definition set_sourcesRef (v : list NodeId) (s : State) : State :=
  {| isConnected := isConnected s; isMuted := isMuted s; status := status s;
     transcript := transcript s; captionText := captionText s;
     isScreenSharing := isScreenSharing s; videoRef := videoRef s;
     audioContextRef := audioContextRef s;
     inputSourceRef := inputSourceRef s; processorRef := processorRef s;
     streamRef := streamRef s; sessionPromiseRef := sessionPromiseRef s;
     videoStreamRef := videoStreamRef s;
     videoIntervalRef := videoIntervalRef s;
     currentInputRef := currentInputRef s;
     currentOutputRef := currentOutputRef s;
     nextStartTimeRef := nextStartTimeRef s; sourcesRef := v;
     fresh := fresh s |}.

Definition set_fresh (v : nat) (s : State) : State :=
  {| isConnected := isConnected s; isMuted := isMuted s; status := status s;
     transcript := transcript s; captionText := captionText s;
     isScreenSharing := isScreenSharing s; videoRef := videoRef s;
     audioContextRef := audioContextRef s;
     inputSourceRef := inputSourceRef s; processorRef := processorRef s;
     streamRef := streamRef s; sessionPromiseRef := sessionPromiseRef s;
     videoStreamRef := videoStreamRef s;
     videoIntervalRef := videoIntervalRef s;
     currentInputRef := currentInputRef s;
     currentOutputRef := currentOutputRef s;
     nextStartTimeRef := nextStartTimeRef s; sourcesRef := sourcesRef s;
     fresh := v |}.

(** ** The handler monad

    A handler runs on a state and either returns, or throws; in both
    cases it leaves a state behind and the platform calls it made. *)

Inductive Outcome (A : Type) : Type :=
| Done (a : A) (s : State) (out : list Effect)
| Thrown (s : State) (out : list Effect).

Arguments Done {A} a s out.
Arguments Thrown {A} s out.

Definition M (A : Type) : Type := State -> Outcome A.

Definition ret {A} (a : A) : M A := fun s => Done a s [].

Definition bind {A B} (m : M A) (f : A -> M B) : M B :=
  fun s =>
    match m s with
    | Done a s1 o1 =>
        match f a s1 with
        | Done b s2 o2 => Done b s2 (o1 ++ o2)
        | Thrown s2 o2 => Thrown s2 (o1 ++ o2)
        end
    | Thrown s1 o1 => Thrown s1 o1
    end.

Notation "x <- m ;; k" := (bind m (fun x => k))
  (at level 61, m at next level, right associativity).
Notation "m ;; k" := (bind m (fun _ => k))
  (at level 61, right associativity).

Definition get {A} (f : State -> A) : M A := fun s => Done (f s) s [].
Definition modify (f : State -> State) : M unit := fun s => Done tt (f s) [].
Definition throw {A} : M A := fun s => Thrown s [].

(** [try { m } catch (e) { h }]. *)
Definition try_catch (m h : M unit) : M unit :=
  fun s =>
    match m s with
    | Done a s1 o1 => Done a s1 o1
    | Thrown s1 o1 =>
        match h s1 with
        | Done a s2 o2 => Done a s2 (o1 ++ o2)
        | Thrown s2 o2 => Thrown s2 (o1 ++ o2)
        end
    end.

Definition when (b : bool) (m : M unit) : M unit :=
  if b then m else ret tt.

(** [xs.forEach(f)]. *)
Fixpoint forEach {A} (f : A -> M unit) (xs : list A) : M unit :=
  match xs with
  | [] => ret tt
  | x :: rest => f x ;; forEach f rest
  end.

(** A new platform object takes the next identity. *)
Definition newId : M nat :=
  fun s => Done (fresh s) (set_fresh (S (fresh s)) s) [].

Definition stateOf {A} (r : Outcome A) : State :=
  match r with
  | Done _ s _ => s
  | Thrown s _ => s
  end.

Definition outputOf {A} (r : Outcome A) : list Effect :=
  match r with
  | Done _ _ o => o
  | Thrown _ o => o
  end.

Definition returned {A} (r : Outcome A) : bool :=
  match r with
  | Done _ _ _ => true
  | Thrown _ _ => false
  end.

(** ** Inbound messages

    The fields of a [LiveServerMessage] that [onMessage] reads:
    [serverContent?.modelTurn?.parts?.[0]?.inlineData?.data],
    [serverContent?.outputTranscription?.text],
    [serverContent?.inputTranscription?.text],
    [serverContent?.turnComplete] and [serverContent?.interrupted];
    [None] is [undefined]. *)
Record LiveServerMessage := {
  audioData : option JsString;
  outputTranscription : option JsString;
  inputTranscription : option JsString;
  turnComplete : bool;
  interrupted : bool
}.

(** [Set.prototype.add] and [Set.prototype.delete] on a set kept in
    insertion order, the order [forEach] visits. *)
Definition setAdd (n : NodeId) (xs : list NodeId) : list NodeId :=
  if existsb (Nat.eqb n) xs then xs else xs ++ [n].

Definition setDelete (n : NodeId) (xs : list NodeId) : list NodeId :=
  filter (fun m => negb (Nat.eqb n m)) xs.

(** The items one turn-complete appends. *)
Definition newItems (input output : JsString) : list TranscriptItem :=
  (if truthy input then [{| role := user; text := input |}] else [])
  ++ (if truthy output then [{| role := model; text := output |}] else []).

(** What reaches the component from outside. *)
Inductive Event :=
| ClickConnect (mic : option MediaStream)   (* button: startSession *)
| ClickMute                                 (* button: setIsMuted(!isMuted) *)
| ClickHangUp                               (* button: cleanup *)
| TransportOpen
| TransportMessage (now : double) (msg : LiveServerMessage)
| TransportClose
| TransportError
| AudioProcess (buffer : nat)               (* the capture callback fires *)
| SourceEnded (n : NodeId).                 (* a playback buffer ran out *)

Section Platform.

(** Which platform calls throw is the platform's business, and so is
    decoding: [decode] and [decodeAudioData] are in utils/audioUtils,
    which is not part of the sources. [decodeAudioData b64] is the
    duration of the buffer decoded from the base64 payload [b64], or
    [None] when decoding throws. *)
Variable throws : Effect -> bool.
Variable decodeAudioData : JsString -> option double.

Definition call (e : Effect) : M unit :=
  fun s => if throws e then Thrown s [] else Done tt s [e].

Definition stopScreenShare : M unit :=
  (iv <- get videoIntervalRef ;;
   match iv with
   | Some id =>
       call (ClearInterval id) ;;
       modify (set_videoIntervalRef None)
   | None => ret tt
   end) ;;
  (vs <- get videoStreamRef ;;
   match vs with
   | Some stream =>
       forEach (fun track => call (TrackStop track)) stream ;;
       modify (set_videoStreamRef None)
   | None => ret tt
   end) ;;
  (v <- get videoRef ;;
   match v with
   | Some _ => modify (set_videoRef (Some {| srcObject := None |}))
   | None => ret tt
   end) ;;
  modify (set_isScreenSharing false).

Definition cleanup : M unit :=
  (* Audio Cleanup *)
  (st <- get streamRef ;;
   match st with
   | Some stream =>
       forEach (fun track => call (TrackStop track)) stream ;;
       modify (set_streamRef None)
   | None => ret tt
   end) ;;
  (p <- get processorRef ;;
   match p with
   | Some processor =>
       call (NodeDisconnect (proc_node processor)) ;;
       modify (set_processorRef None)
   | None => ret tt
   end) ;;
  (i <- get inputSourceRef ;;
   match i with
   | Some source =>
       call (NodeDisconnect source) ;;
       modify (set_inputSourceRef None)
   | None => ret tt
   end) ;;
  (c <- get audioContextRef ;;
   match c with
   | Some ctx =>
       call (ContextClose ctx) ;;
       modify (set_audioContextRef None)
   | None => ret tt
   end) ;;
  (srcs <- get sourcesRef ;;
   forEach (fun source => call (BufferStop source)) srcs) ;;
  modify (set_sourcesRef []) ;;
  (* Video Cleanup *)
  stopScreenShare ;;
  modify (set_isConnected false) ;;
  modify (set_status disconnected) ;;
  modify (set_transcript []) ;;
  modify (set_captionText []) ;;
  modify (set_currentInputRef []) ;;
  modify (set_currentOutputRef []).

Definition newAudioContext (sampleRate : N) : M CtxId :=
  ctx <- newId ;;
  call (NewAudioContext ctx sampleRate) ;;
  ret ctx.

(** [await navigator.mediaDevices.getUserMedia({ audio: true })]: [mic]
    is the stream the user grants, [None] when the promise rejects. *)
Definition getUserMedia (mic : option MediaStream) : M MediaStream :=
  call GetUserMedia ;;
  match mic with
  | Some stream => ret stream
  | None => throw
  end.

(** [startSession] belongs to the render in which the button was
    clicked; [muted] is that render's [isMuted], which the callbacks
    given to [connectLive] close over. [connectLive] is not awaited: a
    transport that fails to open reports it through [onError]. *)
Definition startSession (mic : option MediaStream) : M unit :=
  muted <- get isMuted ;;
  modify (set_status connecting) ;;
  try_catch
    (ctx <- newAudioContext 16000 ;;
     modify (set_audioContextRef (Some ctx)) ;;
     (* Output Context (24kHz for Gemini response) *)
     outputCtx <- newAudioContext 24000 ;;
     stream <- getUserMedia mic ;;
     modify (set_streamRef (Some stream)) ;;
     call ConnectLive ;;
     modify (set_sessionPromiseRef
               (Some {| ses_ctx := ctx; ses_outputCtx := outputCtx;
                        ses_stream := stream; ses_isMuted := muted |})))
    (modify (set_status disconnected)).

Definition onOpen (env : Session) : M unit :=
  modify (set_status connected) ;;
  modify (set_isConnected true) ;;
  modify (set_captionText []) ;;
  (* Setup Input Stream *)
  source <- newId ;;
  call (CreateMediaStreamSource (ses_ctx env) source) ;;
  processor <- newId ;;
  call (CreateScriptProcessor (ses_ctx env) processor) ;;
  modify (set_inputSourceRef (Some source)) ;;
  modify (set_processorRef
            (Some {| proc_node := processor;
                     proc_isMuted := ses_isMuted env |})).

(** [processor.onaudioprocess]. *)
Definition onaudioprocess (p : Processor) (buffer : nat) : M unit :=
  if proc_isMuted p then ret tt (* Simple mute implementation *)
  else call (SendRealtimeInput (PcmBlob buffer)).

(** The parts of [onMessage], in the order of its [if]s: audio,
    transcription, turn-complete, interrupted. A decode that throws
    rejects the handler's promise: the handler ends there. *)
Definition handleAudio (env : Session) (now : double)
  (msg : LiveServerMessage) : M unit :=
  match audioData msg with
  | Some base64Audio =>
      when (truthy base64Audio)
        (modify (fun s =>
                   set_nextStartTimeRef (mathMax (nextStartTimeRef s) now) s) ;;
         duration <- match decodeAudioData base64Audio with
                     | Some d => ret d
                     | None => throw
                     end ;;
         source <- newId ;;
         call (CreateBufferSource (ses_outputCtx env) source) ;;
         start <- get nextStartTimeRef ;;
         call (BufferStart source start duration) ;;
         modify (fun s =>
                   set_nextStartTimeRef (dadd (nextStartTimeRef s) duration)
                     s) ;;
         modify (fun s => set_sourcesRef (setAdd source (sourcesRef s)) s))
  | None => ret tt
  end.

Definition handleTranscription (msg : LiveServerMessage) : M unit :=
  match outputTranscription msg with
  | Some text =>
      when (truthy text)
        (modify (fun s =>
                   set_currentOutputRef (currentOutputRef s ++ text) s) ;;
         cur <- get currentOutputRef ;;
         modify (set_captionText cur))
  | None => ret tt
  end ;;
  match inputTranscription msg with
  | Some text =>
      when (truthy text)
        (modify (fun s =>
                   set_currentInputRef (currentInputRef s ++ text) s))
  | None => ret tt
  end.

Definition handleTurnComplete (msg : LiveServerMessage) : M unit :=
  when (turnComplete msg)
    (cin <- get currentInputRef ;;
     cout <- get currentOutputRef ;;
     let input := trim cin in
     let output := trim cout in
     when (truthy input || truthy output)
       (modify (fun s =>
                  set_transcript (transcript s ++ newItems input output) s)) ;;
     modify (set_currentInputRef []) ;;
     modify (set_currentOutputRef [])).

Definition handleInterrupted (msg : LiveServerMessage) : M unit :=
  when (interrupted msg)
    (srcs <- get sourcesRef ;;
     forEach (fun s => call (BufferStop s)) srcs ;;
     modify (set_sourcesRef []) ;;
     modify (set_nextStartTimeRef (ofZ 0)) ;;
     modify (set_currentOutputRef []) ;;
     modify (set_captionText [])).

(** [onMessage], with [now] the reading of [outputCtx.currentTime], in
    seconds. *)
Definition onMessage (env : Session) (now : double)
  (msg : LiveServerMessage)
  : M unit :=
  handleAudio env now msg ;;
  handleTranscription msg ;;
  handleTurnComplete msg ;;
  handleInterrupted msg.

(** The transport's callbacks are those of the session in
    [sessionPromiseRef]; the capture callback is the one on the
    processor in [processorRef]. *)
Definition withSession (k : Session -> M unit) : M unit :=
  ses <- get sessionPromiseRef ;;
  match ses with
  | Some env => k env
  | None => ret tt
  end.

Definition handle (e : Event) : M unit :=
  match e with
  | ClickConnect mic => startSession mic
  | ClickMute => modify (fun s => set_isMuted (negb (isMuted s)) s)
  | ClickHangUp => cleanup
  | TransportOpen => withSession onOpen
  | TransportMessage now msg => withSession (fun env => onMessage env now msg)
  | TransportClose => withSession (fun _ => cleanup)
  | TransportError => withSession (fun _ => cleanup)
  | AudioProcess buffer =>
      p <- get processorRef ;;
      match p with
      | Some processor => onaudioprocess processor buffer
      | None => ret tt
      end
  | SourceEnded n =>
      modify (fun s => set_sourcesRef (setDelete n (sourcesRef s)) s)
  end.

(** Handlers run one after the other; one that throws leaves its state
    behind and the next event is handled all the same. *)
Fixpoint run (es : list Event) (s : State) : State * list Effect :=
  match es with
  | [] => (s, [])
  | e :: rest =>
      let r := handle e s in
      let (s', out) := run rest (stateOf r) in
      (s', outputOf r ++ out)
  end.

(** The transport handing a sequence of messages to [onMessage]. *)
Fixpoint deliver (env : Session) (ms : list (double * LiveServerMessage))
  (s : State) : State * list Effect :=
  match ms with
  | [] => (s, [])
  | (now, msg) :: rest =>
      let r := onMessage env now msg s in
      let (s', out) := deliver env rest (stateOf r) in
      (s', outputOf r ++ out)
  end.

End Platform.

(** The platform on which no call throws. *)
Definition never : Effect -> bool := fun _ => false.

(** ** Reading the output trace *)

(** The playback schedule: the [(start, duration)] of every
    [source.start], in the order the calls were made. *)
Fixpoint starts (out : list Effect) : list (double * double) :=
  match out with
  | [] => []
  | BufferStart _ when duration :: rest => (when, duration) :: starts rest
  | _ :: rest => starts rest
  end.

(** The sources [stop()] was called on. *)
Fixpoint stopped (out : list Effect) : list NodeId :=
  match out with
  | [] => []
  | BufferStop n :: rest => n :: stopped rest
  | _ :: rest => stopped rest
  end.

(** The audio frames handed to the transport. *)
Fixpoint sent (out : list Effect) : list nat :=
  match out with
  | [] => []
  | SendRealtimeInput (PcmBlob b) :: rest => b :: sent rest
  | _ :: rest => sent rest
  end.

(** The media tracks [stop()] was called on. *)
Fixpoint trackStops (out : list Effect) : list TrackId :=
  match out with
  | [] => []
  | TrackStop t :: rest => t :: trackStops rest
  | _ :: rest => trackStops rest
  end.

Fixpoint opened (out : list Effect) : list CtxId :=
  match out with
  | [] => []
  | NewAudioContext c _ :: rest => c :: opened rest
  | _ :: rest => opened rest
  end.

Fixpoint closed (out : list Effect) : list CtxId :=
  match out with
  | [] => []
  | ContextClose c :: rest => c :: closed rest
  | _ :: rest => closed rest
  end.

(** The audio contexts a trace created and did not close. *)
Definition openContexts (out : list Effect) : list CtxId :=
  filter (fun c => negb (existsb (Nat.eqb c) (closed out))) (opened out).

(** The calls made before the first one that throws. *)
Fixpoint untilThrow (throws : Effect -> bool) (out : list Effect)
  : list Effect :=
  match out with
  | [] => []
  | e :: rest => if throws e then [] else e :: untilThrow throws rest
  end.

(** ** Playback intervals

    The exact value of a finite double is [m * 2^e]. [scaled e0 x] is
    that value counted in units of [2^e0], for an [e0] that is at most
    the exponent of [x]: on these integers sums and comparisons are
    exact. *)

Definition exponentOf (x : double) : Z :=
  match x with
  | S754_finite _ _ e => e
  | _ => 0
  end.

Definition scaled (e0 : Z) (x : double) : Z :=
  match x with
  | S754_finite s m e => cond_Zopp s (Zpos m) * 2 ^ (e - e0)
  | _ => 0
  end.

Definition commonExponent (xs : list double) : Z :=
  fold_right (fun x e => Z.min (exponentOf x) e) 0%Z xs.

Definition exactSum (e0 : Z) (xs : list double) : Z :=
  fold_right (fun x acc => scaled e0 x + acc)%Z 0%Z xs.

(** Two half-open intervals [[start, start + duration)] of finite
    numbers share a point, their ends taken exactly. *)
Definition overlaps (x y : double * double) : bool :=
  let e0 := commonExponent [fst x; snd x; fst y; snd y] in
  let v := scaled e0 in
  (Z.max (v (fst x)) (v (fst y))
   <? Z.min (v (fst x) + v (snd x)) (v (fst y) + v (snd y)))%Z.

(** The [i]-th start of a schedule of finite numbers is at least the
    first start plus the exact sum of the durations before it. *)
Definition startsAfterSum (sched : list (double * double)) (i : nat)
  : bool :=
  match sched, nth_error sched i with
  | first :: _, Some x =>
      let ds := map snd (firstn i sched) in
      let e0 := commonExponent (fst first :: fst x :: ds) in
      (scaled e0 (fst first) + exactSum e0 ds <=? scaled e0 (fst x))%Z
  | _, _ => true
  end.

(** The scheduling rule in the specification's words, on the numbers the
    code computes with: a buffer of duration [d] arriving at clock time
    [now] starts at [max(nextStartTime, now)], and [nextStartTime]
    becomes that start plus [d], rounded. *)
Fixpoint gaplessSchedule (nextStartTime : double)
  (chunks : list (double * double)) : list (double * double) :=
  match chunks with
  | [] => []
  | (now, d) :: rest =>
      let startTime := mathMax nextStartTime now in
      (startTime, d) :: gaplessSchedule (dadd startTime d) rest
  end.

(** The audio payload of a message, when there is one to decode. *)
Definition audioOf (msg : LiveServerMessage) : option JsString :=
  match audioData msg with
  | Some b64 => if truthy b64 then Some b64 else None
  | None => None
  end.

(** No audio in the message that fails to decode. *)
Definition decodable (decodeAudioData : JsString -> option double)
  (msg : LiveServerMessage) : bool :=
  match audioOf msg with
  | Some b64 =>
      match decodeAudioData b64 with
      | Some _ => true
      | None => false
      end
  | None => true
  end.

(** The chunks of a message sequence: arrival clock and decoded
    duration. *)
Fixpoint chunksOf (decodeAudioData : JsString -> option double)
  (ms : list (double * LiveServerMessage)) : list (double * double) :=
  match ms with
  | [] => []
  | (now, msg) :: rest =>
      match audioOf msg with
      | Some b64 =>
          match decodeAudioData b64 with
          | Some d => (now, d) :: chunksOf decodeAudioData rest
          | None => chunksOf decodeAudioData rest
          end
      | None => chunksOf decodeAudioData rest
      end
  end.

(** ** Transcript deltas *)

(** A message that carries one partial transcript and nothing else. *)
Definition outputDelta (t : JsString) : LiveServerMessage :=
  {| audioData := None; outputTranscription := Some t;
     inputTranscription := None; turnComplete := false;
     interrupted := false |}.

Definition inputDelta (t : JsString) : LiveServerMessage :=
  {| audioData := None; outputTranscription := None;
     inputTranscription := Some t; turnComplete := false;
     interrupted := false |}.

Definition turnCompleteMsg : LiveServerMessage :=
  {| audioData := None; outputTranscription := None;
     inputTranscription := None; turnComplete := true;
     interrupted := false |}.

Definition interruptedMsg : LiveServerMessage :=
  {| audioData := None; outputTranscription := None;
     inputTranscription := None; turnComplete := false;
     interrupted := true |}.

Definition audioMsg (b64 : JsString) : LiveServerMessage :=
  {| audioData := Some b64; outputTranscription := None;
     inputTranscription := None; turnComplete := false;
     interrupted := false |}.

(** ** Mute accounting, in the specification's words *)

(** The capture cycles of an event sequence, and those among them that
    occur while the [muted] flag is set; the flag flips at each toggle. *)
Fixpoint captures (es : list Event) : list nat :=
  match es with
  | [] => []
  | AudioProcess b :: rest => b :: captures rest
  | _ :: rest => captures rest
  end.

Fixpoint unmutedCaptures (muted : bool) (es : list Event) : list nat :=
  match es with
  | [] => []
  | AudioProcess b :: rest =>
      if muted then unmutedCaptures muted rest
      else b :: unmutedCaptures muted rest
  | ClickMute :: rest => unmutedCaptures (negb muted) rest
  | _ :: rest => unmutedCaptures muted rest
  end.

(** Only mute toggles and capture callbacks. *)
Definition captureOrMute (e : Event) : bool :=
  match e with
  | AudioProcess _ | ClickMute => true
  | _ => false
  end.

(** ** Teardown, step by step *)

Definition optCall {A} (f : A -> Effect) (o : option A) : list Effect :=
  match o with
  | Some a => [f a]
  | None => []
  end.

Definition optCalls {A} (f : A -> Effect) (o : option (list A))
  : list Effect :=
  match o with
  | Some xs => map f xs
  | None => []
  end.

Definition tracksOf (o : option MediaStream) : list TrackId :=
  match o with
  | Some stream => stream
  | None => []
  end.

(** The releases teardown makes from a state, in order: the microphone
    tracks, the processor node, the source node, the audio context in
    [audioContextRef], the active playback buffers, the screen-share
    timer, the screen-share tracks. *)
Definition teardownCalls (s : State) : list Effect :=
  optCalls TrackStop (streamRef s)
  ++ optCall (fun p => NodeDisconnect (proc_node p)) (processorRef s)
  ++ optCall NodeDisconnect (inputSourceRef s)
  ++ optCall ContextClose (audioContextRef s)
  ++ map BufferStop (sourcesRef s)
  ++ optCall ClearInterval (videoIntervalRef s)
  ++ optCalls TrackStop (videoStreamRef s).

(** The state [stopScreenShare] leaves. *)
Definition screenShareStopped (s : State) : State :=
  set_isScreenSharing false
    (match videoRef s with
     | Some _ => set_videoRef (Some {| srcObject := None |})
     | None => fun x => x
     end (set_videoStreamRef None (set_videoIntervalRef None s))).

(** The state teardown leaves. *)
Definition tornDown (s : State) : State :=
  {| isConnected := false; isMuted := isMuted s; status := disconnected;
     transcript := []; captionText := []; isScreenSharing := false;
     videoRef := match videoRef s with
                 | Some _ => Some {| srcObject := None |}
                 | None => None
                 end;
     audioContextRef := None; inputSourceRef := None; processorRef := None;
     streamRef := None; sessionPromiseRef := sessionPromiseRef s;
     videoStreamRef := None; videoIntervalRef := None;
     currentInputRef := []; currentOutputRef := [];
     nextStartTimeRef := nextStartTimeRef s; sourcesRef := [];
     fresh := fresh s |}.

(** ** A sample decoder

    Modelled from the spec: [decode] and [decodeAudioData] of
    utils/audioUtils are not part of the sources. The payload is taken as
    the PCM byte string itself, one code unit a byte: 16-bit mono samples,
    so an odd-length input is malformed and fails, and the buffer has
    half the length in frames; its duration is that over the sample rate
    of 24000. Used for concrete runs only. *)
Definition seconds (frames : Z) : double := ddiv (ofZ frames) (ofZ 24000).

Definition pcm16Frames (payload : JsString) : option double :=
  let n := Z.of_nat (length payload) in
  if Z.even n then Some (seconds (Z.div2 n)) else None.

(** A payload of [frames] silent frames. *)
Definition silence (frames : N) : JsString :=
  repeat 0%N (N.to_nat (2 * frames)).

(** Scenario A of the specification: three chunks of 500 ms, 12000
    frames each, arriving while the output clock still reads 0. *)
Definition scenarioA : list (double * LiveServerMessage) :=
  [(ofZ 0, audioMsg (silence 12000)); (ofZ 0, audioMsg (silence 12000));
   (ofZ 0, audioMsg (silence 12000))].

(** Four chunks of 40 ms, 960 frames each, arriving while the output
    clock reads 0; and two chunks of one frame arriving when it reads
    2^40 seconds. *)
Definition chunks40ms : list (double * LiveServerMessage) :=
  [(ofZ 0, audioMsg (silence 960)); (ofZ 0, audioMsg (silence 960));
   (ofZ 0, audioMsg (silence 960)); (ofZ 0, audioMsg (silence 960))].

Definition lateChunks : list (double * LiveServerMessage) :=
  [(ofZ (2 ^ 40), audioMsg (silence 1));
   (ofZ (2 ^ 40), audioMsg (silence 1))].

(** A session as [startSession] and [onOpen] set it up from the mounted
    component, the microphone stream having the one track 7. *)
Definition connectedState : State :=
  fst (run never pcm16Frames [ClickConnect (Some [7]); TransportOpen] initial).

Definition connectedSession : Session :=
  {| ses_ctx := 0; ses_outputCtx := 1; ses_stream := [7];
     ses_isMuted := false |}.

(** ** The state each part of [onMessage] leaves *)

Definition textOf (o : option JsString) : JsString :=
  match o with
  | Some t => t
  | None => []
  end.

Definition afterAudio (now d : double) (s : State) : State :=
  set_sourcesRef (setAdd (fresh s) (sourcesRef s))
    (set_nextStartTimeRef (dadd (mathMax (nextStartTimeRef s) now) d)
       (set_fresh (S (fresh s)) s)).

Definition afterTranscription (msg : LiveServerMessage) (s : State) : State :=
  let out := textOf (outputTranscription msg) in
  set_currentInputRef (currentInputRef s ++ textOf (inputTranscription msg))
    (set_captionText
       (if truthy out then currentOutputRef s ++ out else captionText s)
       (set_currentOutputRef (currentOutputRef s ++ out) s)).

Definition afterTurnComplete (msg : LiveServerMessage) (s : State) : State :=
  if turnComplete msg
  then set_currentOutputRef []
         (set_currentInputRef []
            (set_transcript
               (transcript s
                ++ newItems (trim (currentInputRef s))
                     (trim (currentOutputRef s))) s))
  else s.

Definition afterInterrupted (msg : LiveServerMessage) (s : State) : State :=
  if interrupted msg
  then set_captionText []
         (set_currentOutputRef []
            (set_nextStartTimeRef (ofZ 0) (set_sourcesRef [] s)))
  else s.

(** ** Concrete platforms and runs *)

(** A platform on which stopping a media track throws. *)
Definition trackStopThrows (e : Effect) : bool :=
  match e with
  | TrackStop _ => true
  | _ => false
  end.

(** A message with a chunk that does not decode, a transcript delta and
    the end of the turn; and the same message without the chunk. *)
Definition malformedTurn : LiveServerMessage :=
  {| audioData := Some [1%N]; outputTranscription := Some [104; 105]%N;
     inputTranscription := None; turnComplete := true;
     interrupted := false |}.

Definition wellFormedTurn : LiveServerMessage :=
  {| audioData := None; outputTranscription := Some [104; 105]%N;
     inputTranscription := None; turnComplete := true;
     interrupted := false |}.

(** A message that neither ends the turn nor interrupts, and whose
    audio, if any, decodes. *)
Definition quiet (decodeAudioData : JsString -> option double)
  (msg : LiveServerMessage) : bool :=
  negb (turnComplete msg) && negb (interrupted msg)
  && decodable decodeAudioData msg.

Definition inputTexts (ms : list (double * LiveServerMessage))
  : JsString :=
  concat (map (fun m => textOf (inputTranscription (snd m))) ms).

Definition outputTexts (ms : list (double * LiveServerMessage))
  : JsString :=
  concat (map (fun m => textOf (outputTranscription (snd m))) ms).

(** ** Running a handler on a platform whose calls may throw

    [Performs throws m s calls s'] says how [m] runs from [s], in terms
    of the calls it makes when none throws: it returns in [s'] having
    made [calls], unless one of them throws, in which case it stops
    before that call with the session still in the connection state it
    was in. *)
Definition Performs (throws : Effect -> bool) (m : M unit) (s : State)
  (calls : list Effect) (s' : State) : Prop :=
  if existsb throws calls
  then exists s1,
      m s = Thrown s1 (untilThrow throws calls)
      /\ status s1 = status s /\ isConnected s1 = isConnected s
  else m s = Done tt s' calls.

(** * Properties *)

(** ** The monad *)

Lemma untilThrow_app throws (xs ys : list Effect) :
  untilThrow throws (xs ++ ys)
  = if existsb throws xs then untilThrow throws xs
    else xs ++ untilThrow throws ys.
Proof.
  induction xs as [|x xs IH]; cbn; [reflexivity|].
  destruct (throws x); cbn; [reflexivity|].
  rewrite IH. destruct (existsb throws xs); reflexivity.
Qed.

Lemma untilThrow_never (xs : list Effect) : untilThrow never xs = xs.
Proof. induction xs as [|x xs IH]; cbn; [|rewrite IH]; reflexivity. Qed.

Lemma existsb_never (xs : list Effect) : existsb never xs = false.
Proof. induction xs as [|x xs IH]; cbn; [|rewrite IH]; reflexivity. Qed.

Lemma Performs_bind throws (m k : M unit) s c1 s1 c2 s2 :
  Performs throws m s c1 s1 ->
  Performs throws k s1 c2 s2 ->
  (status s1 = status s /\ isConnected s1 = isConnected s) ->
  Performs throws (m ;; k) s (c1 ++ c2) s2.
Proof.
  unfold Performs, bind. rewrite existsb_app, untilThrow_app.
  destruct (existsb throws c1); cbn.
  - intros (sa & -> & Hs & Hc) _ _. exists sa. auto.
  - intros -> Hk [Hs Hc]. destruct (existsb throws c2).
    + destruct Hk as (sb & -> & Hs' & Hc'). exists sb.
      repeat split; congruence.
    + rewrite Hk. reflexivity.
Qed.

(** The last step of a handler may change the connection state. *)
Lemma Performs_bind_pure throws (m : M unit) (f : State -> State) s c1 s1 :
  Performs throws m s c1 s1 ->
  Performs throws (m ;; modify f) s c1 (f s1).
Proof.
  unfold Performs, bind, modify.
  destruct (existsb throws c1).
  - intros (sa & -> & Hs & Hc). exists sa. auto.
  - intros ->. rewrite app_nil_r. reflexivity.
Qed.

Lemma Performs_call throws e s :
  Performs throws (call throws e) s [e] s.
Proof.
  unfold Performs, call. cbn. destruct (throws e); cbn; [|reflexivity].
  exists s. auto.
Qed.

Lemma Performs_ret throws s : Performs throws (ret tt) s [] s.
Proof. reflexivity. Qed.

Lemma Performs_modify throws f s : Performs throws (modify f) s [] (f s).
Proof. reflexivity. Qed.

Lemma Performs_forEach throws (A : Type) (f : A -> Effect) xs s :
  Performs throws (forEach (fun x => call throws (f x)) xs) s (map f xs) s.
Proof.
  induction xs as [|x xs IH]; cbn [forEach map].
  - apply Performs_ret.
  - change (f x :: map f xs) with ([f x] ++ map f xs).
    apply Performs_bind with (s1 := s); auto using Performs_call.
Qed.

Lemma Performs_get throws (A : Type) (g : State -> A) (k : A -> M unit)
  s c s' :
  Performs throws (k (g s)) s c s' ->
  Performs throws (x <- get g ;; k x) s c s'.
Proof.
  unfold Performs, bind, get.
  destruct (existsb throws c).
  - intros (sa & H & Hs). exists sa. rewrite H. auto.
  - intros ->. reflexivity.
Qed.

(** ** Teardown *)

Lemma Performs_release throws (A : Type) (g : State -> option A)
  (mk : A -> Effect) (clear : State -> State) s c :
  c = optCall mk (g s) ->
  (g s = None -> clear s = s) ->
  Performs throws
    (x <- get g ;;
     match x with
     | Some a => call throws (mk a) ;; modify clear
     | None => ret tt
     end) s c (clear s).
Proof.
  intros -> Hnone. apply Performs_get.
  destruct (g s) as [a|]; cbn [optCall].
  - apply Performs_bind_pure, Performs_call.
  - rewrite Hnone by reflexivity. apply Performs_ret.
Qed.

Lemma Performs_releaseAll throws (A : Type) (g : State -> option (list A))
  (mk : A -> Effect) (clear : State -> State) s c :
  c = optCalls mk (g s) ->
  (g s = None -> clear s = s) ->
  Performs throws
    (x <- get g ;;
     match x with
     | Some xs => forEach (fun a => call throws (mk a)) xs ;; modify clear
     | None => ret tt
     end) s c (clear s).
Proof.
  intros -> Hnone. apply Performs_get.
  destruct (g s) as [xs|]; cbn [optCalls].
  - apply Performs_bind_pure, Performs_forEach.
  - rewrite Hnone by reflexivity. apply Performs_ret.
Qed.

(** Clearing a ref that is already null changes nothing. *)
Ltac cleared :=
  match goal with
  | s : State |- _ => destruct s; cbn; intros; subst; reflexivity
  end.

Ltac release_step :=
  eapply Performs_bind;
  [ first [ eapply Performs_release | eapply Performs_releaseAll ];
    [ reflexivity | cleared ]
  | | split; reflexivity ].

Lemma stopScreenShare_Performs throws s c :
  c = optCall ClearInterval (videoIntervalRef s)
      ++ optCalls TrackStop (videoStreamRef s) ->
  Performs throws (stopScreenShare throws) s c (screenShareStopped s).
Proof.
  intros ->. unfold stopScreenShare.
  release_step.
  rewrite <- (app_nil_r (optCalls _ _)).
  release_step.
  unfold Performs, bind, get, modify, screenShareStopped. cbn.
  destruct (videoRef s); reflexivity.
Qed.

Lemma cleanup_Performs throws s :
  Performs throws (cleanup throws) s (teardownCalls s) (tornDown s).
Proof.
  assert (E : tornDown s
              = set_currentOutputRef [] (set_currentInputRef []
                 (set_captionText [] (set_transcript []
                   (set_status disconnected (set_isConnected false
                     (screenShareStopped (set_sourcesRef []
                       (set_audioContextRef None (set_inputSourceRef None
                         (set_processorRef None
                           (set_streamRef None s)))))))))))).
  { destruct s as [? ? ? ? ? ? [v|] ? ? ? ? ? ? ? ? ? ? ? ?]; reflexivity. }
  rewrite E. unfold cleanup, teardownCalls.
  do 4 release_step.
  eapply Performs_bind;
    [ apply Performs_get, Performs_forEach | | split; reflexivity ].
  rewrite <- (app_nil_l (optCall _ _ ++ _)).
  eapply Performs_bind; [ apply Performs_modify | | split; reflexivity ].
  rewrite <- (app_nil_r (optCall _ _ ++ _)).
  eapply Performs_bind;
    [ apply stopScreenShare_Performs; reflexivity | | ].
  - reflexivity.
  - split; destruct s as [? ? ? ? ? ? [v|] ? ? ? ? ? ? ? ? ? ? ? ?];
      reflexivity.
Qed.

(** ** Inbound messages *)

Lemma bind_Done {A B : Type} {m : M A} {k : A -> M B} {s a s1 o1} :
  m s = Done a s1 o1 ->
  bind m k s = match k a s1 with
               | Done b s2 o2 => Done b s2 (o1 ++ o2)
               | Thrown s2 o2 => Thrown s2 (o1 ++ o2)
               end.
Proof. unfold bind. intros ->. reflexivity. Qed.

Lemma bind_Thrown {A B : Type} {m : M A} {k : A -> M B} {s s1 o1} :
  m s = Thrown s1 o1 -> bind m k s = Thrown s1 o1.
Proof. unfold bind. intros ->. reflexivity. Qed.

Lemma forEach_never (A : Type) (f : A -> Effect) xs s :
  forEach (fun x => call never (f x)) xs s = Done tt s (map f xs).
Proof.
  induction xs as [|x xs IH]; cbn [forEach map]; [reflexivity|].
  unfold bind. cbn. rewrite IH. reflexivity.
Qed.

Section Messages.

Variable decodeAudioData : JsString -> option double.
Variable env : Session.

Lemma handleAudio_none now msg s :
  audioOf msg = None ->
  handleAudio never decodeAudioData env now msg s = Done tt s [].
Proof.
  unfold audioOf, handleAudio.
  destruct (audioData msg) as [b|]; [|reflexivity].
  destruct (truthy b); [discriminate|reflexivity].
Qed.

Lemma handleAudio_decoded now msg s b d :
  audioOf msg = Some b ->
  decodeAudioData b = Some d ->
  handleAudio never decodeAudioData env now msg s
  = Done tt (afterAudio now d s)
      [CreateBufferSource (ses_outputCtx env) (fresh s);
       BufferStart (fresh s) (mathMax (nextStartTimeRef s) now) d].
Proof.
  unfold audioOf, handleAudio.
  destruct (audioData msg) as [b'|]; [|discriminate].
  destruct (truthy b'); [|discriminate].
  intros [= ->] Hd. unfold when, bind, modify. rewrite Hd.
  destruct s; reflexivity.
Qed.

Lemma handleAudio_malformed now msg s b :
  audioOf msg = Some b ->
  decodeAudioData b = None ->
  handleAudio never decodeAudioData env now msg s
  = Thrown (set_nextStartTimeRef (mathMax (nextStartTimeRef s) now) s) [].
Proof.
  unfold audioOf, handleAudio.
  destruct (audioData msg) as [b'|]; [|discriminate].
  destruct (truthy b'); [|discriminate].
  intros [= ->] Hd. unfold when, bind, modify. rewrite Hd.
  reflexivity.
Qed.

Lemma handleTranscription_eq msg s :
  handleTranscription msg s = Done tt (afterTranscription msg s) [].
Proof.
  unfold handleTranscription, afterTranscription.
  destruct (outputTranscription msg) as [[|c t]|],
           (inputTranscription msg) as [[|c' t']|];
    destruct s; cbn; rewrite ?app_nil_r; reflexivity.
Qed.

Lemma handleTurnComplete_eq msg s :
  handleTurnComplete msg s = Done tt (afterTurnComplete msg s) [].
Proof.
  unfold handleTurnComplete, afterTurnComplete, newItems.
  destruct (turnComplete msg); [|reflexivity].
  unfold when, bind, get, modify; cbn -[trim].
  destruct (truthy (trim (currentInputRef s))),
           (truthy (trim (currentOutputRef s)));
    cbn -[trim]; rewrite ?app_nil_r; destruct s; reflexivity.
Qed.

Lemma handleInterrupted_eq msg s :
  handleInterrupted never msg s
  = Done tt (afterInterrupted msg s)
      (if interrupted msg then map BufferStop (sourcesRef s) else []).
Proof.
  unfold handleInterrupted, afterInterrupted.
  destruct (interrupted msg); [|reflexivity].
  cbn [when]. unfold bind at 1. cbn [get].
  rewrite (bind_Done (forEach_never _ BufferStop (sourcesRef s) s)).
  cbn. rewrite app_nil_r. reflexivity.
Qed.

(** The rest of the handler, after the audio part. *)
Lemma onMessage_rest msg s :
  (handleTranscription msg ;;
   handleTurnComplete msg ;;
   handleInterrupted never msg) s
  = Done tt
      (afterInterrupted msg (afterTurnComplete msg (afterTranscription msg s)))
      (if interrupted msg
       then map BufferStop (sourcesRef s)
       else []).
Proof.
  rewrite (bind_Done (handleTranscription_eq msg s)).
  rewrite (bind_Done (handleTurnComplete_eq msg _)).
  rewrite handleInterrupted_eq. cbn [app].
  replace (sourcesRef (afterTurnComplete msg (afterTranscription msg s)))
    with (sourcesRef s); [reflexivity|].
  unfold afterTurnComplete. destruct (turnComplete msg); reflexivity.
Qed.

Lemma onMessage_plain now msg s :
  audioOf msg = None ->
  onMessage never decodeAudioData env now msg s
  = Done tt
      (afterInterrupted msg (afterTurnComplete msg (afterTranscription msg s)))
      (if interrupted msg then map BufferStop (sourcesRef s) else []).
Proof.
  intros Ha. unfold onMessage.
  rewrite (bind_Done (handleAudio_none now msg s Ha)).
  rewrite onMessage_rest. reflexivity.
Qed.

Lemma onMessage_decoded now msg s b d :
  audioOf msg = Some b ->
  decodeAudioData b = Some d ->
  onMessage never decodeAudioData env now msg s
  = Done tt
      (afterInterrupted msg
         (afterTurnComplete msg (afterTranscription msg (afterAudio now d s))))
      ([CreateBufferSource (ses_outputCtx env) (fresh s);
        BufferStart (fresh s) (mathMax (nextStartTimeRef s) now) d]
       ++ (if interrupted msg
           then map BufferStop (setAdd (fresh s) (sourcesRef s))
           else [])).
Proof.
  intros Ha Hd. unfold onMessage.
  rewrite (bind_Done (handleAudio_decoded now msg s b d Ha Hd)).
  rewrite onMessage_rest. reflexivity.
Qed.

Lemma onMessage_malformed now msg s b :
  audioOf msg = Some b ->
  decodeAudioData b = None ->
  onMessage never decodeAudioData env now msg s
  = Thrown (set_nextStartTimeRef (mathMax (nextStartTimeRef s) now) s) [].
Proof.
  intros Ha Hd. unfold onMessage.
  apply bind_Thrown, handleAudio_malformed with (b := b); assumption.
Qed.

End Messages.

Lemma cleanup_never s :
  cleanup never s = Done tt (tornDown s) (teardownCalls s).
Proof.
  pose proof (cleanup_Performs never s) as H. unfold Performs in H.
  rewrite existsb_never in H. exact H.
Qed.

Lemma cleanup_tornDown throws s :
  cleanup throws (tornDown s) = Done tt (tornDown s) [].
Proof.
  pose proof (cleanup_Performs throws (tornDown s)) as H.
  unfold Performs in H.
  replace (teardownCalls (tornDown s)) with (@nil Effect) in H
    by reflexivity.
  replace (tornDown (tornDown s)) with (tornDown s) in H; [exact H|].
  unfold tornDown; cbn. destruct (videoRef s); reflexivity.
Qed.

Lemma closed_app xs ys : closed (xs ++ ys) = closed xs ++ closed ys.
Proof.
  induction xs as [|[] xs IH]; cbn; rewrite ?IH; reflexivity.
Qed.

Lemma stopped_app xs ys : stopped (xs ++ ys) = stopped xs ++ stopped ys.
Proof.
  induction xs as [|[] xs IH]; cbn; rewrite ?IH; reflexivity.
Qed.

Lemma trackStops_app xs ys :
  trackStops (xs ++ ys) = trackStops xs ++ trackStops ys.
Proof.
  induction xs as [|[] xs IH]; cbn; rewrite ?IH; reflexivity.
Qed.

Lemma stopped_BufferStop xs : stopped (map BufferStop xs) = xs.
Proof. induction xs as [|x xs IH]; cbn; [|rewrite IH]; reflexivity. Qed.

Lemma stopped_TrackStop xs : stopped (map TrackStop xs) = [].
Proof. induction xs as [|x xs IH]; cbn; [|rewrite IH]; reflexivity. Qed.

Lemma closed_TrackStop xs : closed (map TrackStop xs) = [].
Proof. induction xs as [|x xs IH]; cbn; [|rewrite IH]; reflexivity. Qed.

Lemma closed_BufferStop xs : closed (map BufferStop xs) = [].
Proof. induction xs as [|x xs IH]; cbn; [|rewrite IH]; reflexivity. Qed.

Lemma trackStops_TrackStop xs : trackStops (map TrackStop xs) = xs.
Proof. induction xs as [|x xs IH]; cbn; [|rewrite IH]; reflexivity. Qed.

Lemma trackStops_BufferStop xs : trackStops (map BufferStop xs) = [].
Proof. induction xs as [|x xs IH]; cbn; [|rewrite IH]; reflexivity. Qed.

Create Rewrite HintDb trace.
#[local] Hint Rewrite closed_app stopped_app trackStops_app
  stopped_BufferStop stopped_TrackStop closed_TrackStop closed_BufferStop
  trackStops_TrackStop trackStops_BufferStop app_nil_r : trace.

(** What a teardown releases, read off its calls. *)
Ltac read_teardown :=
  unfold teardownCalls, optCalls, optCall, tracksOf;
  repeat match goal with
         | |- context [match ?o with Some _ => _ | None => _ end] =>
             destruct o
         end;
  autorewrite with trace; cbn; autorewrite with trace; reflexivity.

Lemma trackStops_teardownCalls s :
  trackStops (teardownCalls s)
  = tracksOf (streamRef s) ++ tracksOf (videoStreamRef s).
Proof. read_teardown. Qed.

Lemma closed_teardownCalls s :
  closed (teardownCalls s)
  = match audioContextRef s with
    | Some ctx => [ctx]
    | None => []
    end.
Proof. read_teardown. Qed.

Lemma stopped_teardownCalls s : stopped (teardownCalls s) = sourcesRef s.
Proof. read_teardown. Qed.

(** C6, as amended. Teardown makes its releases in this order: stop every
    track of the microphone stream, disconnect the processor node, then
    the source node, close the audio context held in [audioContextRef]
    (the capture context), stop every active playback buffer and clear
    the set, cancel the screen-share timer, stop the screen-share tracks
    and release the video element's source; it ends with the session
    disconnected and the transcript, the caption and both accumulations
    cleared. Each release is made only when its ref is set. No step is
    protected: a call that throws ends the routine there, the calls after
    it are not made, and the session keeps the connection state it had. *)
Theorem cleanup_steps throws s :
  cleanup never s = Done tt (tornDown s) (teardownCalls s)
  /\ status (tornDown s) = disconnected
  /\ isConnected (tornDown s) = false
  /\ outputOf (cleanup throws s) = untilThrow throws (teardownCalls s)
  /\ returned (cleanup throws s) = negb (existsb throws (teardownCalls s))
  /\ (if returned (cleanup throws s)
      then stateOf (cleanup throws s) = tornDown s
      else status (stateOf (cleanup throws s)) = status s
           /\ isConnected (stateOf (cleanup throws s)) = isConnected s).
Proof.
  split; [apply cleanup_never|].
  split; [reflexivity|]. split; [reflexivity|].
  pose proof (cleanup_Performs throws s) as H. unfold Performs in H.
  destruct (existsb throws (teardownCalls s)) eqn:E.
  - destruct H as (s1 & -> & Hs & Hc). cbn. auto.
  - rewrite H. cbn. repeat split.
    clear H. induction (teardownCalls s) as [|e l IH]; [reflexivity|].
    cbn in *. destruct (throws e); [discriminate|].
    cbn in E. rewrite <- IH by exact E. reflexivity.
Qed.

(** C6 fails as stated. In a session set up by [startSession] and
    [onOpen] and then hung up, the output context (context 1, the one the
    session's [onMessage] plays on) is created and never closed, the
    context teardown closes being the capture context 0; and on a
    platform where stopping a track throws, teardown stops at its first
    step: nothing is released and the session stays connected. *)
Lemma cleanup_steps_counterexample :
  (let r := run never pcm16Frames
              [ClickConnect (Some [7]); TransportOpen; ClickHangUp] initial in
   status (fst r) = disconnected
   /\ option_map ses_outputCtx (sessionPromiseRef (fst r)) = Some 1
   /\ closed (snd r) = [0]
   /\ openContexts (snd r) = [1])
  /\ (let r := cleanup trackStopThrows connectedState in
      r = Thrown connectedState []
      /\ status (stateOf r) = connected
      /\ processorRef (stateOf r) <> None
      /\ audioContextRef (stateOf r) = Some 0).
Proof.
  split; vm_compute; repeat split; discriminate.
Qed.

(** C7. Teardown is idempotent. From any state, a first teardown leaves
    the session disconnected with every ref cleared, having made one
    release call for each handle the state held (one [stop] for each
    track of the microphone and of the screen share, one [close] for the
    audio context, one [stop] for each active buffer); a second teardown
    right after it, on any platform, makes no call and changes nothing,
    so the two together release each handle once. A teardown of the
    component as mounted changes nothing either. *)
Theorem cleanup_idempotent throws s :
  let r1 := cleanup never s in
  let r2 := cleanup throws (stateOf r1) in
  returned r1 = true
  /\ status (stateOf r1) = disconnected
  /\ isConnected (stateOf r1) = false
  /\ (streamRef (stateOf r1) = None /\ processorRef (stateOf r1) = None
      /\ inputSourceRef (stateOf r1) = None
      /\ audioContextRef (stateOf r1) = None
      /\ videoStreamRef (stateOf r1) = None
      /\ videoIntervalRef (stateOf r1) = None
      /\ sourcesRef (stateOf r1) = [])
  /\ r2 = Done tt (stateOf r1) []
  /\ outputOf r1 ++ outputOf r2 = teardownCalls s
  /\ trackStops (outputOf r1 ++ outputOf r2)
     = tracksOf (streamRef s) ++ tracksOf (videoStreamRef s)
  /\ closed (outputOf r1 ++ outputOf r2)
     = match audioContextRef s with
       | Some ctx => [ctx]
       | None => []
       end
  /\ stopped (outputOf r1 ++ outputOf r2) = sourcesRef s
  /\ cleanup throws initial = Done tt initial [].
Proof.
  cbv zeta. rewrite cleanup_never. cbn [stateOf outputOf returned].
  rewrite cleanup_tornDown. cbn [outputOf]. rewrite app_nil_r.
  rewrite trackStops_teardownCalls, closed_teardownCalls,
    stopped_teardownCalls.
  repeat split.
Qed.

(** ** Connecting *)

(** C5 does not hold of [startSession]. When the microphone is refused,
    the [catch] sets the status back to disconnected and does nothing
    else: the two audio contexts made before the refusal stay open, the
    capture context still in [audioContextRef]. When the transport
    reports the failure through [onError], teardown stops the microphone
    and closes the capture context, and the output context stays open. *)
Theorem startSession_refused_keeps_contexts s :
  (let r := startSession never None s in
   returned r = true
   /\ status (stateOf r) = disconnected
   /\ audioContextRef (stateOf r) = Some (fresh s)
   /\ outputOf r = [NewAudioContext (fresh s) 16000;
                    NewAudioContext (S (fresh s)) 24000;
                    GetUserMedia]
   /\ openContexts (outputOf r) = [fresh s; S (fresh s)])
  /\ (let r := run never pcm16Frames
                 [ClickConnect (Some [7]); TransportError] initial in
      status (fst r) = disconnected
      /\ streamRef (fst r) = None
      /\ snd r = [NewAudioContext 0 16000; NewAudioContext 1 24000;
                  GetUserMedia; ConnectLive; TrackStop 7; ContextClose 0]
      /\ openContexts (snd r) = [1]).
Proof.
  split; [|vm_compute; repeat split].
  destruct s; cbn. repeat split.
Qed.

(** ** Capture and mute *)

Lemma sent_app xs ys : sent (xs ++ ys) = sent xs ++ sent ys.
Proof.
  induction xs as [|[| | | | | | | | | | | |[b]] xs IH]; cbn;
    rewrite ?IH; reflexivity.
Qed.

(** C2 does not hold of the capture callback. The [isMuted] it tests is
    the binding the session's callbacks closed over when [startSession]
    ran; [setIsMuted] never reaches it. Whatever the toggling, a session
    started unmuted transmits every capture cycle, and one started muted
    transmits none. *)
Theorem capture_ignores_mute_toggle decodeAudioData es s p :
  processorRef s = Some p ->
  forallb captureOrMute es = true ->
  sent (snd (run never decodeAudioData es s))
  = if proc_isMuted p then [] else captures es.
Proof.
  revert s. induction es as [|e es IH]; intros s Hp Hes.
  - cbn. destruct (proc_isMuted p); reflexivity.
  - cbn [forallb] in Hes. apply andb_prop in Hes as [He Hes].
    destruct e; try discriminate He; cbn [run captures].
    + (* ClickMute *)
      specialize (IH (set_isMuted (negb (isMuted s)) s) Hp Hes).
      cbn [handle modify stateOf outputOf].
      destruct (run never decodeAudioData es _) as [s' out].
      cbn [snd app] in *. exact IH.
    + (* AudioProcess *)
      specialize (IH s Hp Hes).
      cbn [handle]. unfold bind, get. rewrite Hp. unfold onaudioprocess.
      destruct (proc_isMuted p); cbn;
        destruct (run never decodeAudioData es s) as [s' out];
        cbn in *; rewrite IH; reflexivity.
Qed.

(** The session of [connectedState] was started unmuted; muting it and
    letting the capture callback fire once transmits the frame, where
    the count of unmuted capture cycles is zero. *)
Lemma capture_ignores_mute_toggle_witness :
  processorRef connectedState
  = Some {| proc_node := 3; proc_isMuted := false |}
  /\ isMuted (fst (run never pcm16Frames [ClickMute] connectedState)) = true
  /\ sent (snd (run never pcm16Frames [ClickMute; AudioProcess 0]
                  connectedState)) = [0]
  /\ unmutedCaptures (isMuted connectedState) [ClickMute; AudioProcess 0]
     = [].
Proof.
  split; [reflexivity|]. split; [reflexivity|]. split; [|reflexivity].
  apply (@capture_ignores_mute_toggle pcm16Frames [ClickMute; AudioProcess 0]
           connectedState {| proc_node := 3; proc_isMuted := false |});
    reflexivity.
Defined.

(** ** The playback schedule *)

Lemma starts_app xs ys : starts (xs ++ ys) = starts xs ++ starts ys.
Proof.
  induction xs as [|[] xs IH]; cbn; rewrite ?IH; reflexivity.
Qed.

Lemma starts_BufferStop xs : starts (map BufferStop xs) = [].
Proof. induction xs as [|x xs IH]; cbn; [|rewrite IH]; reflexivity. Qed.

(** A number that is not NaN compares equal to itself. *)
Lemma SFcompare_refl x : x <> S754_nan -> SFcompare x x = Some Eq.
Proof.
  destruct x as [[]|[]| |[] m e]; cbn; intros H;
    try reflexivity; try contradiction;
    rewrite Z.compare_refl;
    change (Pos.compare_cont Eq m m) with (Pos.compare m m);
    rewrite Pos.compare_refl; reflexivity.
Qed.

(** [Math.max] is NaN or at least its first argument. *)
Lemma mathMax_ge x y :
  mathMax x y = S754_nan \/ dle x (mathMax x y) = true.
Proof.
  unfold mathMax, dle, SFleb.
  destruct (SFcompare x y) as [[]|] eqn:E; [| | |left; reflexivity].
  - assert (Hx : x <> S754_nan) by (intros ->; discriminate E).
    destruct x as [[]|[]| |[] m e]; right;
      try (rewrite SFcompare_refl by exact Hx; reflexivity);
      rewrite E; reflexivity.
  - right. rewrite E. reflexivity.
  - assert (Hx : x <> S754_nan) by (intros ->; discriminate E).
    right. rewrite SFcompare_refl by exact Hx. reflexivity.
Qed.

(** In the schedule of the rule each buffer but the first starts at the
    larger of the rounded end of the one before it and a clock reading. *)
Lemma gaplessSchedule_next chunks next i x y :
  nth_error (gaplessSchedule next chunks) i = Some x ->
  nth_error (gaplessSchedule next chunks) (S i) = Some y ->
  exists now,
    In now (map fst chunks)
    /\ fst y = mathMax (dadd (fst x) (snd x)) now.
Proof.
  revert next i. induction chunks as [|[now d] rest IH]; intros next i.
  - destruct i; discriminate.
  - cbn [gaplessSchedule]. destruct i as [|i]; cbn [nth_error].
    + intros [= <-]. destruct rest as [|[now' d'] rest]; [discriminate|].
      cbn. intros [= <-]. exists now'. auto.
    + intros Hx Hy. destruct (IH _ _ Hx Hy) as (now' & Hin & Heq).
      exists now'. split; [right; exact Hin|exact Heq].
Qed.

Lemma nextStartTimeRef_rest msg s :
  interrupted msg = false ->
  nextStartTimeRef
    (afterInterrupted msg (afterTurnComplete msg (afterTranscription msg s)))
  = nextStartTimeRef s.
Proof.
  intros Hi. unfold afterInterrupted, afterTurnComplete. rewrite Hi.
  destruct (turnComplete msg); reflexivity.
Qed.

Lemma deliver_schedule decodeAudioData env ms s :
  forallb (fun m => negb (interrupted (snd m))
                    && decodable decodeAudioData (snd m)) ms = true ->
  starts (snd (deliver never decodeAudioData env ms s))
  = gaplessSchedule (nextStartTimeRef s) (chunksOf decodeAudioData ms).
Proof.
  revert s. induction ms as [|[now msg] ms IH]; intros s Hms.
  - reflexivity.
  - cbn [forallb snd] in Hms.
    apply andb_prop in Hms as [Hm Hms]. apply andb_prop in Hm as [Hi Hd].
    apply negb_true_iff in Hi. unfold decodable in Hd.
    cbn [deliver chunksOf].
    destruct (audioOf msg) as [b|] eqn:Ha.
    + destruct (decodeAudioData b) as [d|] eqn:Eb; [|discriminate].
      rewrite (@onMessage_decoded _ env now _ s _ _ Ha Eb), Hi.
      cbn [stateOf outputOf].
      specialize (IH (afterInterrupted msg
                        (afterTurnComplete msg
                           (afterTranscription msg (afterAudio now d s)))) Hms).
      destruct (deliver never decodeAudioData env ms _) as [s' out].
      cbn [snd] in *. rewrite starts_app, IH, nextStartTimeRef_rest by exact Hi.
      reflexivity.
    + rewrite (@onMessage_plain decodeAudioData env now _ s Ha), Hi.
      cbn [stateOf outputOf].
      specialize (IH (afterInterrupted msg
                        (afterTurnComplete msg (afterTranscription msg s)))
                    Hms).
      destruct (deliver never decodeAudioData env ms _) as [s' out].
      cbn [snd app] in *. rewrite IH, nextStartTimeRef_rest by exact Hi.
      reflexivity.
Qed.

(** C1, as amended. For a sequence of messages none of which is an
    interruption and whose audio chunks all decode, the calls to
    [source.start] follow the scheduling rule on the numbers the code
    computes with: each buffer starts at [max(nextStartTime, output
    clock)] and [nextStartTime] then becomes that start plus the
    buffer's duration, rounded to a double. So each buffer after the
    first starts at the larger of a clock reading and the rounded end of
    the buffer before it, hence, unless it is NaN, no earlier than that
    rounded end. *)
Theorem playback_schedule decodeAudioData env ms s :
  forallb (fun m => negb (interrupted (snd m))
                    && decodable decodeAudioData (snd m)) ms = true ->
  let sched := starts (snd (deliver never decodeAudioData env ms s)) in
  sched = gaplessSchedule (nextStartTimeRef s) (chunksOf decodeAudioData ms)
  /\ (forall i x y,
         nth_error sched i = Some x ->
         nth_error sched (S i) = Some y ->
         (exists now,
             In now (map fst (chunksOf decodeAudioData ms))
             /\ fst y = mathMax (dadd (fst x) (snd x)) now)
         /\ (fst y = S754_nan
             \/ dle (dadd (fst x) (snd x)) (fst y) = true)).
Proof.
  intros Hms sched. subst sched. rewrite (deliver_schedule _ _ _ _ Hms).
  split; [reflexivity|]. intros i x y Hx Hy.
  destruct (gaplessSchedule_next _ _ _ _ _ Hx Hy) as (now & Hin & Heq).
  split; [exists now; auto|]. rewrite Heq. apply mathMax_ge.
Qed.

(** Three chunks of 3, 2 and 4 frames arriving at clock times 5, 5 and
    20 seconds: the second is queued behind the first, the third starts
    late, at its arrival. *)
Lemma playback_schedule_witness :
  starts (snd (deliver never pcm16Frames connectedSession
                 [(ofZ 5, audioMsg (silence 3)); (ofZ 5, audioMsg (silence 2));
                  (ofZ 20, audioMsg (silence 4))] connectedState))
  = [(ofZ 5, seconds 3); (dadd (ofZ 5) (seconds 3), seconds 2);
     (ofZ 20, seconds 4)].
Proof.
  exact (proj1 (@playback_schedule pcm16Frames connectedSession
                  [(ofZ 5, audioMsg (silence 3));
                   (ofZ 5, audioMsg (silence 2));
                   (ofZ 20, audioMsg (silence 4))] connectedState eq_refl)).
Defined.

(** C1 fails as stated, of the numbers passed to [source.start]. Four
    chunks of 40 ms arriving at clock 0 start at 0, 0.04, 0.08 and at
    the double just below 0.12: the sum 0.08 + 0.04 is rounded down, so
    the fourth buffer starts before the third ends and before the first
    start plus the three durations. Two chunks of one frame arriving at
    clock 2^40 start at the same instant: there the duration is lost in
    the rounding of the sum. *)
Lemma playback_gapless_counterexample :
  let third := (S754_finite false 5764607523034235 (-56), seconds 960) in
  let fourth := (S754_finite false 8646911284551352 (-56), seconds 960) in
  let sched :=
    [(ofZ 0, seconds 960);
     (S754_finite false 5764607523034235 (-57), seconds 960);
     third; fourth] in
  let late := (ofZ (2 ^ 40), seconds 1) in
  starts (snd (deliver never pcm16Frames connectedSession chunks40ms
                 connectedState)) = sched
  /\ overlaps third fourth = true
  /\ startsAfterSum sched 3 = false
  /\ starts (snd (deliver never pcm16Frames connectedSession lateChunks
                    connectedState)) = [late; late]
  /\ overlaps late late = true.
Proof.
  cbv zeta. split; [vm_compute; reflexivity|].
  split; [vm_compute; reflexivity|].
  split; [vm_compute; reflexivity|].
  split; vm_compute; reflexivity.
Qed.

(** Scenario A: three sequential 500 ms chunks start at 0 s, 0.5 s and
    1 s; these sums are exact. *)
Example scenarioA_schedule :
  starts (snd (deliver never pcm16Frames connectedSession scenarioA
                 connectedState))
  = [(ofZ 0, seconds 12000); (seconds 12000, seconds 12000);
     (ofZ 1, seconds 12000)].
Proof. vm_compute. reflexivity. Qed.

(** ** Interruption *)

Lemma firstn_prefix (A : Type) (xs ys : list A) :
  firstn (length xs) (xs ++ ys) = xs.
Proof. induction xs as [|x xs IH]; cbn; [|rewrite IH]; reflexivity. Qed.

Lemma In_setAdd n xs : In n (setAdd n xs).
Proof.
  unfold setAdd. destruct (existsb (Nat.eqb n) xs) eqn:E.
  - apply existsb_exists in E as (m & Hm & Heq).
    apply Nat.eqb_eq in Heq. subst. exact Hm.
  - apply in_or_app. right. left. reflexivity.
Qed.

Lemma In_setAdd_old n m xs : In n xs -> In n (setAdd m xs).
Proof.
  unfold setAdd. destruct (existsb (Nat.eqb m) xs); [auto|].
  intros H. apply in_or_app. left. exact H.
Qed.

Lemma onMessage_decodable decodeAudioData env now msg s :
  decodable decodeAudioData msg = true ->
  exists s0 calls,
    onMessage never decodeAudioData env now msg s
    = Done tt
        (afterInterrupted msg
           (afterTurnComplete msg (afterTranscription msg s0)))
        (calls ++ if interrupted msg
                  then map BufferStop (sourcesRef s0) else [])
    /\ (forall n, In n (sourcesRef s) -> In n (sourcesRef s0))
    /\ (forall n w d, In (BufferStart n w d) calls -> In n (sourcesRef s0))
    /\ stopped calls = []
    /\ transcript s0 = transcript s
    /\ currentInputRef s0 = currentInputRef s
    /\ currentOutputRef s0 = currentOutputRef s.
Proof.
  unfold decodable. intros Hd.
  destruct (audioOf msg) as [b|] eqn:Ha.
  - destruct (decodeAudioData b) as [d|] eqn:Eb; [|discriminate].
    exists (afterAudio now d s). eexists.
    split; [apply (@onMessage_decoded _ env now _ s _ _ Ha Eb)|].
    repeat split; cbn.
    + intros n. apply In_setAdd_old.
    + intros n w d' [H|[H|[]]]; [discriminate H|].
      injection H as <- _ _. apply In_setAdd.
  - exists s, []. split; [apply (@onMessage_plain _ env now _ s Ha)|].
    repeat split; auto. intros n w d [].
Qed.

Lemma onMessage_keeps_session decodeAudioData env now msg s :
  sessionPromiseRef (stateOf (onMessage never decodeAudioData env now msg s))
  = sessionPromiseRef s.
Proof.
  destruct (audioOf msg) as [b|] eqn:Ha.
  - destruct (decodeAudioData b) as [d|] eqn:Eb.
    + rewrite (onMessage_decoded _ env now _ s _ _ Ha Eb). cbn [stateOf].
      unfold afterInterrupted, afterTurnComplete.
      destruct (interrupted msg), (turnComplete msg); reflexivity.
    + rewrite (onMessage_malformed _ env now _ s _ Ha Eb). reflexivity.
  - rewrite (onMessage_plain decodeAudioData env now _ s Ha). cbn [stateOf].
    unfold afterInterrupted, afterTurnComplete.
    destruct (interrupted msg), (turnComplete msg); reflexivity.
Qed.

(** Messages reach [onMessage] through the transport of the session in
    [sessionPromiseRef]. *)
Lemma handle_message decodeAudioData env now msg s :
  sessionPromiseRef s = Some env ->
  handle never decodeAudioData (TransportMessage now msg) s
  = onMessage never decodeAudioData env now msg s.
Proof.
  intros Hs. cbn [handle]. unfold withSession, bind at 1, get. rewrite Hs.
  destruct (onMessage never decodeAudioData env now msg s); reflexivity.
Qed.

Lemma run_messages decodeAudioData env ms s :
  sessionPromiseRef s = Some env ->
  run never decodeAudioData
    (map (fun m => TransportMessage (fst m) (snd m)) ms) s
  = deliver never decodeAudioData env ms s.
Proof.
  revert s. induction ms as [|[now msg] ms IH]; intros s Hs; [reflexivity|].
  cbn [map run deliver fst snd].
  rewrite (handle_message decodeAudioData env now msg s Hs).
  rewrite IH; [reflexivity|].
  rewrite onMessage_keeps_session. exact Hs.
Qed.

(** C3. When a message with the [interrupted] flag has been handled,
    every playback buffer that was active, and the one the same message
    scheduled, has been stopped and the active set is empty;
    [nextStartTime] is 0; the agent accumulation and the caption are
    empty; the turns finalized before are still there, at the head of the
    transcript, which is unchanged when the message does not also end
    the turn. *)
Theorem interrupted_clears_playback decodeAudioData env now msg s :
  interrupted msg = true ->
  decodable decodeAudioData msg = true ->
  let r := onMessage never decodeAudioData env now msg s in
  returned r = true
  /\ sourcesRef (stateOf r) = []
  /\ (forall n, In n (sourcesRef s) -> In n (stopped (outputOf r)))
  /\ (forall n w d, In (BufferStart n w d) (outputOf r) ->
                    In n (stopped (outputOf r)))
  /\ nextStartTimeRef (stateOf r) = ofZ 0
  /\ currentOutputRef (stateOf r) = []
  /\ captionText (stateOf r) = []
  /\ firstn (length (transcript s)) (transcript (stateOf r)) = transcript s
  /\ (turnComplete msg = false -> transcript (stateOf r) = transcript s).
Proof.
  intros Hi Hd r. subst r.
  destruct (onMessage_decodable _ env now _ s Hd)
    as (s0 & calls & -> & Hold & Hnew & Hstop & Htr & _ & _).
  rewrite Hi. cbn [returned stateOf outputOf].
  rewrite stopped_app, Hstop, stopped_BufferStop. cbn [app].
  unfold afterInterrupted. rewrite Hi. cbn.
  repeat split; auto.
  - intros n w d H. apply in_app_or in H as [H|H]; [eauto|].
    apply in_map_iff in H as (m & Hm & _). discriminate Hm.
  - unfold afterTurnComplete. destruct (turnComplete msg); cbn;
      rewrite Htr; [apply firstn_prefix|apply firstn_all].
  - intros Ht. unfold afterTurnComplete. rewrite Ht. exact Htr.
Qed.

Lemma interrupted_clears_playback_witness :
  let r := onMessage never pcm16Frames connectedSession (ofZ 9)
             {| audioData := Some (silence 2); outputTranscription := None;
                inputTranscription := None; turnComplete := false;
                interrupted := true |}
             (fst (deliver never pcm16Frames connectedSession
                     [(ofZ 5, audioMsg (silence 3))] connectedState)) in
  outputOf r = [CreateBufferSource 1 5;
                BufferStart 5 (ofZ 9) (seconds 2);
                BufferStop 4; BufferStop 5]
  /\ sourcesRef (stateOf r) = [] /\ nextStartTimeRef (stateOf r) = ofZ 0.
Proof.
  pose proof (@interrupted_clears_playback pcm16Frames connectedSession
                (ofZ 9)
                {| audioData := Some (silence 2); outputTranscription := None;
                   inputTranscription := None; turnComplete := false;
                   interrupted := true |}
                (fst (deliver never pcm16Frames connectedSession
                        [(ofZ 5, audioMsg (silence 3))] connectedState))
                eq_refl eq_refl) as H.
  cbv zeta in H. destruct H as (_ & Hs & _ & _ & Hn & _).
  split; [reflexivity|]. split; [exact Hs|exact Hn].
Defined.

(** C10. The [interrupted] branch writes the active set,
    [nextStartTime], the agent accumulation and the caption, and
    nothing else: the user accumulation, the transcript, the connection
    state, the mute flag, the screen-share flag with its timer, stream
    and video element, and the capture refs are as they were, and so
    they are after a whole message that carries the flag alone, whose
    only calls are the [stop]s of the active buffers. *)
Theorem interrupted_frame decodeAudioData env now msg s :
  let unchanged s' :=
    currentInputRef s' = currentInputRef s
    /\ transcript s' = transcript s
    /\ status s' = status s
    /\ isConnected s' = isConnected s
    /\ isMuted s' = isMuted s
    /\ isScreenSharing s' = isScreenSharing s
    /\ videoIntervalRef s' = videoIntervalRef s
    /\ videoStreamRef s' = videoStreamRef s
    /\ videoRef s' = videoRef s
    /\ audioContextRef s' = audioContextRef s
    /\ inputSourceRef s' = inputSourceRef s
    /\ processorRef s' = processorRef s
    /\ streamRef s' = streamRef s
    /\ sessionPromiseRef s' = sessionPromiseRef s in
  unchanged (stateOf (handleInterrupted never msg s))
  /\ unchanged
       (stateOf (onMessage never decodeAudioData env now interruptedMsg s))
  /\ outputOf (onMessage never decodeAudioData env now interruptedMsg s)
     = map BufferStop (sourcesRef s).
Proof.
  cbv zeta. rewrite handleInterrupted_eq.
  rewrite (@onMessage_plain decodeAudioData env now interruptedMsg s eq_refl).
  cbn [stateOf outputOf]. unfold afterInterrupted.
  split; [destruct (interrupted msg); repeat split|].
  cbn. rewrite app_nil_r. repeat split.
Qed.

(** ** Malformed audio *)

(** C8, as amended. When the chunk of a message fails to decode, the
    handler stops there: no buffer is scheduled, no call is made, the
    transcript deltas and the turn-complete and interrupted flags of the
    same message are not processed, and the state is as before except
    that [nextStartTime] has been raised to
    [max(nextStartTime, output clock)]. The messages that follow are
    handled as usual from that state; nothing is torn down. *)
Theorem malformed_chunk_drops_message decodeAudioData env now msg rest s b :
  audioOf msg = Some b ->
  decodeAudioData b = None ->
  let s' := set_nextStartTimeRef (mathMax (nextStartTimeRef s) now) s in
  onMessage never decodeAudioData env now msg s = Thrown s' []
  /\ deliver never decodeAudioData env ((now, msg) :: rest) s
     = deliver never decodeAudioData env rest s'.
Proof.
  intros Ha Hd s'. subst s'.
  pose proof (onMessage_malformed decodeAudioData env now msg s b Ha Hd) as H.
  split; [exact H|]. cbn [deliver]. rewrite H. cbn [stateOf outputOf].
  destruct (deliver never decodeAudioData env rest _) as [s1 out].
  reflexivity.
Qed.

Lemma malformed_chunk_drops_message_witness :
  onMessage never pcm16Frames connectedSession (ofZ 9) malformedTurn
    connectedState
  = Thrown (set_nextStartTimeRef (ofZ 9) connectedState) [].
Proof.
  exact (proj1 (malformed_chunk_drops_message pcm16Frames connectedSession
                  (ofZ 9) malformedTurn [] connectedState [1%N]
                  eq_refl eq_refl)).
Defined.

(** C8 fails as stated: the message of [malformedTurn] carries a chunk
    that does not decode together with the agent's text and the end of
    the turn. The handler throws at the chunk and the turn is lost: the
    transcript stays empty and the text is not even accumulated, where
    the same message without the chunk finalizes the agent's turn. *)
Lemma malformed_chunk_counterexample :
  let bad := onMessage never pcm16Frames connectedSession (ofZ 9)
               malformedTurn connectedState in
  let good := onMessage never pcm16Frames connectedSession (ofZ 9)
                wellFormedTurn connectedState in
  returned bad = false
  /\ transcript (stateOf bad) = []
  /\ currentOutputRef (stateOf bad) = []
  /\ returned good = true
  /\ transcript (stateOf good)
     = [{| role := model; text := [104; 105]%N |}].
Proof. vm_compute. repeat split. Qed.

(** ** Transcript turns *)

Lemma trimStart_all s : forallb isWhiteSpace s = true -> trimStart s = [].
Proof.
  induction s as [|c s IH]; cbn; [reflexivity|].
  destruct (isWhiteSpace c); cbn; [exact IH|discriminate].
Qed.

Lemma trimStart_nil s : trimStart s = [] -> forallb isWhiteSpace s = true.
Proof.
  induction s as [|c s IH]; cbn; [reflexivity|].
  destruct (isWhiteSpace c); cbn; [exact IH|discriminate].
Qed.

Lemma forallb_rev (A : Type) (f : A -> bool) xs :
  forallb f (rev xs) = forallb f xs.
Proof.
  induction xs as [|x xs IH]; cbn; [reflexivity|].
  rewrite forallb_app, IH. cbn. rewrite andb_true_r. apply andb_comm.
Qed.

Lemma trimStart_head s c r : trimStart s = c :: r -> isWhiteSpace c = false.
Proof.
  induction s as [|c' s IH]; cbn; [discriminate|].
  destruct (isWhiteSpace c') eqn:W; [exact IH|].
  intros [= -> _]. exact W.
Qed.

(** [trim] leaves nothing exactly when there was only white space. *)
Lemma trim_nil_iff s : trim s = [] <-> forallb isWhiteSpace s = true.
Proof.
  unfold trim, trimEnd. split.
  - intros H. apply (f_equal (@rev N)) in H. rewrite rev_involutive in H.
    cbn in H. apply trimStart_nil in H. rewrite forallb_rev in H.
    destruct (trimStart s) as [|c r] eqn:E; [apply trimStart_nil, E|].
    apply trimStart_head in E. cbn in H. rewrite E in H. discriminate H.
  - intros H. rewrite (trimStart_all _ H). reflexivity.
Qed.

Lemma truthy_trim s :
  truthy (trim s) = negb (forallb isWhiteSpace s).
Proof.
  destruct (forallb isWhiteSpace s) eqn:E.
  - apply trim_nil_iff in E. rewrite E. reflexivity.
  - destruct (trim s) eqn:T; [|reflexivity].
    apply trim_nil_iff in T. congruence.
Qed.

Lemma onMessage_turnComplete decodeAudioData env now msg s :
  turnComplete msg = true ->
  decodable decodeAudioData msg = true ->
  let r := onMessage never decodeAudioData env now msg s in
  returned r = true
  /\ transcript (stateOf r)
     = transcript s
       ++ newItems
            (trim (currentInputRef s ++ textOf (inputTranscription msg)))
            (trim (currentOutputRef s ++ textOf (outputTranscription msg)))
  /\ currentInputRef (stateOf r) = []
  /\ currentOutputRef (stateOf r) = [].
Proof.
  intros Ht Hd r. subst r.
  destruct (onMessage_decodable _ env now _ s Hd)
    as (s0 & calls & -> & _ & _ & _ & Htr & Hin & Hout).
  cbn [returned stateOf]. unfold afterInterrupted, afterTurnComplete.
  rewrite Ht.
  destruct (interrupted msg); cbn -[trim]; rewrite Htr, Hin, Hout;
    repeat split.
Qed.

(** C9. A message that ends the turn appends at most one item per role,
    the user's before the agent's, each the trimmed accumulation of its
    direction (what was accumulated before plus the delta the message
    itself carries), and only when that is not empty; afterwards both
    accumulations are empty. With nothing accumulated and no delta the
    transcript is unchanged. *)
Theorem turnComplete_finalizes decodeAudioData env now msg s :
  turnComplete msg = true ->
  decodable decodeAudioData msg = true ->
  let r := onMessage never decodeAudioData env now msg s in
  let input :=
    trim (currentInputRef s ++ textOf (inputTranscription msg)) in
  let output :=
    trim (currentOutputRef s ++ textOf (outputTranscription msg)) in
  returned r = true
  /\ transcript (stateOf r)
     = transcript s
       ++ match truthy input, truthy output with
          | true, true => [{| role := user; text := input |};
                           {| role := model; text := output |}]
          | true, false => [{| role := user; text := input |}]
          | false, true => [{| role := model; text := output |}]
          | false, false => []
          end
  /\ currentInputRef (stateOf r) = []
  /\ currentOutputRef (stateOf r) = []
  /\ (currentInputRef s = [] -> currentOutputRef s = [] ->
      inputTranscription msg = None -> outputTranscription msg = None ->
      transcript (stateOf r) = transcript s).
Proof.
  intros Ht Hd r input output. subst r input output.
  destruct (onMessage_turnComplete decodeAudioData env now msg s Ht Hd)
    as (Hr & Htrans & Hin & Hout).
  repeat split; auto.
  - rewrite Htrans. unfold newItems.
    destruct (truthy (trim (currentInputRef s ++ _))),
      (truthy (trim (currentOutputRef s ++ _))); reflexivity.
  - intros Hi Ho Hit Hot. rewrite Htrans, Hi, Ho, Hit, Hot.
    cbn. apply app_nil_r.
Qed.

Lemma turnComplete_finalizes_witness :
  transcript
    (stateOf (onMessage never pcm16Frames connectedSession (ofZ 9)
                wellFormedTurn
                (set_currentInputRef [32; 111; 105; 32]%N connectedState)))
  = [{| role := user; text := [111; 105]%N |};
     {| role := model; text := [104; 105]%N |}].
Proof.
  pose proof (turnComplete_finalizes pcm16Frames connectedSession (ofZ 9)
                wellFormedTurn
                (set_currentInputRef [32; 111; 105; 32]%N connectedState)
                eq_refl eq_refl) as H.
  cbv zeta in H. destruct H as (_ & H & _). exact H.
Defined.

Lemma deliver_app decodeAudioData env ms1 ms2 s :
  fst (deliver never decodeAudioData env (ms1 ++ ms2) s)
  = fst (deliver never decodeAudioData env ms2
           (fst (deliver never decodeAudioData env ms1 s))).
Proof.
  revert s. induction ms1 as [|[now msg] ms1 IH]; intros s; [reflexivity|].
  cbn [app deliver].
  specialize (IH (stateOf (onMessage never decodeAudioData env now msg s))).
  destruct (deliver never decodeAudioData env (ms1 ++ ms2) _) as [sa oa].
  destruct (deliver never decodeAudioData env ms1 _) as [sb ob].
  exact IH.
Qed.

(** Between two turn boundaries the deltas pile up, in arrival order. *)
Lemma deliver_accumulates decodeAudioData env ms s :
  forallb (fun m => quiet decodeAudioData (snd m)) ms = true ->
  let s' := fst (deliver never decodeAudioData env ms s) in
  currentInputRef s' = currentInputRef s ++ inputTexts ms
  /\ currentOutputRef s' = currentOutputRef s ++ outputTexts ms
  /\ transcript s' = transcript s.
Proof.
  revert s. induction ms as [|[now msg] ms IH]; intros s Hms.
  - cbn. rewrite !app_nil_r. auto.
  - cbn [forallb snd] in Hms. apply andb_prop in Hms as [Hq Hms].
    unfold quiet in Hq. apply andb_prop in Hq as [Hq Hd].
    apply andb_prop in Hq as [Ht Hi].
    apply negb_true_iff in Ht, Hi.
    destruct (onMessage_decodable _ env now _ s Hd)
      as (s0 & calls & Hr & _ & _ & _ & Htr & Hin & Hout).
    cbn [deliver]. rewrite Hr. cbn [stateOf outputOf].
    unfold afterInterrupted, afterTurnComplete. rewrite Ht, Hi.
    specialize (IH (afterTranscription msg s0) Hms). cbv zeta in IH.
    destruct (deliver never decodeAudioData env ms _) as [s1 out].
    cbn [fst] in *. destruct IH as (-> & -> & ->).
    unfold inputTexts, outputTexts. cbn.
    rewrite Htr, Hin, Hout, !app_assoc. auto.
Qed.

Lemma outputDeltas_texts decodeAudioData
  (deltas : list (double * JsString)) :
  let ms := map (fun d => (fst d, outputDelta (snd d))) deltas in
  forallb (fun m => quiet decodeAudioData (snd m)) ms = true
  /\ outputTexts ms = concat (map snd deltas)
  /\ inputTexts ms = [].
Proof.
  unfold inputTexts, outputTexts.
  induction deltas as [|[now t] deltas (IH1 & IH2 & IH3)]; cbn; auto.
  cbn in IH1. rewrite IH1, IH2, IH3. auto.
Qed.

Lemma inputDeltas_texts decodeAudioData
  (deltas : list (double * JsString)) :
  let ms := map (fun d => (fst d, inputDelta (snd d))) deltas in
  forallb (fun m => quiet decodeAudioData (snd m)) ms = true
  /\ inputTexts ms = concat (map snd deltas)
  /\ outputTexts ms = [].
Proof.
  unfold inputTexts, outputTexts.
  induction deltas as [|[now t] deltas (IH1 & IH2 & IH3)]; cbn; auto.
  cbn in IH1. rewrite IH1, IH2, IH3. auto.
Qed.


(** C4. A sequence of partial transcript deltas for one direction, then
    a turn-complete: when what they spell, trimmed, is not empty, it is
    appended to the transcript as one message of that direction's role;
    otherwise nothing is appended, and that is exactly when the deltas
    hold nothing but white space. *)
Theorem transcript_reconstruction decodeAudioData env
  (deltas : list (double * JsString)) now s :
  currentInputRef s = [] ->
  currentOutputRef s = [] ->
  let finalized := trim (concat (map snd deltas)) in
  let agent :=
    fst (deliver never decodeAudioData env
           (map (fun d => (fst d, outputDelta (snd d))) deltas
            ++ [(now, turnCompleteMsg)]) s) in
  let usr :=
    fst (deliver never decodeAudioData env
           (map (fun d => (fst d, inputDelta (snd d))) deltas
            ++ [(now, turnCompleteMsg)]) s) in
  transcript agent
  = transcript s
    ++ (if truthy finalized
        then [{| role := model; text := finalized |}] else [])
  /\ transcript usr
     = transcript s
       ++ (if truthy finalized
           then [{| role := user; text := finalized |}] else [])
  /\ (truthy finalized = false
      <-> forallb isWhiteSpace (concat (map snd deltas)) = true).
Proof.
  intros Hin Hout finalized agent usr. subst finalized agent usr.
  rewrite !deliver_app.
  split; [|split].
  - destruct (outputDeltas_texts decodeAudioData deltas) as (Hq & Ho & Hi).
    cbv zeta in *.
    destruct (deliver_accumulates decodeAudioData env _ s Hq)
      as (Hci & Hco & Htr).
    rewrite Ho, Hout in Hco. rewrite Hi, Hin in Hci. cbn [app] in *.
    destruct (onMessage_turnComplete decodeAudioData env now turnCompleteMsg
                (fst (deliver never decodeAudioData env
                        (map (fun d => (fst d, outputDelta (snd d))) deltas)
                        s)) eq_refl eq_refl) as (_ & Ht & _).
    cbn [deliver]. cbv zeta in Ht.
    destruct (onMessage never decodeAudioData env now turnCompleteMsg _)
      as [[] s1 o1|s1 o1]; cbn [stateOf fst] in *;
      rewrite Ht, Htr, Hci, Hco; cbn -[trim]; rewrite app_nil_r;
      reflexivity.
  - destruct (inputDeltas_texts decodeAudioData deltas) as (Hq & Hi & Ho).
    cbv zeta in *.
    destruct (deliver_accumulates decodeAudioData env _ s Hq)
      as (Hci & Hco & Htr).
    rewrite Ho, Hout in Hco. rewrite Hi, Hin in Hci. cbn [app] in *.
    destruct (onMessage_turnComplete decodeAudioData env now turnCompleteMsg
                (fst (deliver never decodeAudioData env
                        (map (fun d => (fst d, inputDelta (snd d))) deltas)
                        s)) eq_refl eq_refl) as (_ & Ht & _).
    cbn [deliver]. cbv zeta in Ht.
    destruct (onMessage never decodeAudioData env now turnCompleteMsg _)
      as [[] s1 o1|s1 o1]; cbn [stateOf fst] in *;
      rewrite Ht, Htr, Hci, Hco; cbn -[trim]; rewrite app_nil_r;
      unfold newItems; cbn -[trim]; rewrite app_nil_r; reflexivity.
  - rewrite truthy_trim, negb_false_iff. reflexivity.
Qed.

(** The deltas [Ol] and [á, tudo bem?] and a turn-complete give the one
    agent message [Olá, tudo bem?]. *)
Lemma transcript_reconstruction_witness :
  transcript
    (fst (deliver never pcm16Frames connectedSession
            [(ofZ 1, outputDelta [79; 108]%N);
             (ofZ 2, outputDelta [225; 44; 32; 116; 117; 100; 111; 32;
                                  98; 101; 109; 63]%N);
             (ofZ 3, turnCompleteMsg)] connectedState))
  = [{| role := model;
        text := [79; 108; 225; 44; 32; 116; 117; 100; 111; 32;
                 98; 101; 109; 63]%N |}].
Proof.
  exact (proj1 (transcript_reconstruction pcm16Frames connectedSession
                  [(ofZ 1, [79; 108]%N);
                   (ofZ 2, [225; 44; 32; 116; 117; 100; 111; 32;
                            98; 101; 109; 63]%N)] (ofZ 3) connectedState
                  eq_refl eq_refl)).
Defined.
